(** * Recurring events: materialization, exception overlay and scoped mutation

    A shallow embedding of the recurring-event routes of the repository and
    of the storage they are written against, with the properties stated of
    them.

    Sources embedded:
    - [src/routes/events.js]: the handlers [post], [get], [put] and
      [delete] of [/api/events]; the listing of the create handler breaks
      off after its line 82;
    - the worker: [jsonResponse], [errorResponse],
      [validateRequiredFields] and the class [Router];
    - the test setup: [CREATE TABLE Recurring_Events],
      [CREATE TABLE Event_Instances] and [CREATE TABLE Event_Exceptions].
    [parseRRule] and [generateInstances], which the routes call, have no
    code in the sources; they are modelled from the specification, each
    under a comment saying so.

    Conventions of the embedding.

    - A calendar date (the TEXT value ['YYYY-MM-DD'] of the columns
      [start_date], [end_date], [instance_date]) is represented by its day
      number, the count of days since 1970-01-01.  SQLite compares the
      zero-padded ISO text byte by byte, which orders dates exactly as their
      day numbers are ordered, so [instance_date >= ?] is [<=?] on [Z].
    - A time of day (['HH:MM:SS']) is kept as the string the code stores.
    - An ISO date-time of a request is the pair of its date and of the text
      after ['T']; a request whose [startTime] or [endTime] is not of that
      shape is outside the model.
    - A table is the list of its rows in insertion order together with its
      AUTOINCREMENT counter (SQLite's [sqlite_sequence] entry).
    - An [await db.prepare(..).run()] is a step of a state-and-exception
      monad over the connection.  A statement that is accepted has the
      effect SQLite gives it; any statement may be refused, and a handler
      stops at the first one that is: the connection carries the index of
      the statement that is going to be refused, and a property stated for
      every such index holds whatever the binding refuses.  The binding of
      the deployment and of the tests is Cloudflare D1 (the wrangler
      configuration, [vitest.config.js]), which refuses the statement
      BEGIN: see [begin_refused]. *)

From Stdlib Require Import ZArith List Bool String Ascii Lia Sorting.Sorted.
Import ListNotations.
Local Open Scope string_scope.
Local Open Scope Z_scope.

Set Implicit Arguments.

(** ** Dates *)

Definition date := Z.

Module Calendar.

(** Proleptic Gregorian calendar, days counted from 1970-01-01. *)

Definition is_leap (y : Z) : bool :=
  ((y mod 4 =? 0) && negb (y mod 100 =? 0)) || (y mod 400 =? 0).

Definition days_in_month (y m : Z) : Z :=
  if m =? 2 then (if is_leap y then 29 else 28)
  else if (m =? 4) || (m =? 6) || (m =? 9) || (m =? 11) then 30
  else 31.

Definition days_from_civil (y m d : Z) : date :=
  let y' := if m <=? 2 then y - 1 else y in
  let era := y' / 400 in
  let yoe := y' - era * 400 in
  let doy := (153 * (m + (if 2 <? m then -3 else 9)) + 2) / 5 + d - 1 in
  let doe := yoe * 365 + yoe / 4 - yoe / 100 + doy in
  era * 146097 + doe - 719468.

Definition civil_from_days (z : date) : Z * Z * Z :=
  let z' := z + 719468 in
  let era := z' / 146097 in
  let doe := z' - era * 146097 in
  let yoe := (doe - doe / 1460 + doe / 36524 - doe / 146096) / 365 in
  let y := yoe + era * 400 in
  let doy := doe - (365 * yoe + yoe / 4 - yoe / 100) in
  let mp := (5 * doy + 2) / 153 in
  let d := doy - (153 * mp + 2) / 5 + 1 in
  let m := if mp <? 10 then mp + 3 else mp - 9 in
  (if m <=? 2 then y + 1 else y, m, d).

(** 0 is Monday, 6 is Sunday; 1970-01-01 was a Thursday. *)
Definition weekday_index (z : date) : Z := (z + 3) mod 7.

End Calendar.

(** ** Recurrence rules *)

Inductive Frequency := daily | weekly | monthly | yearly.

Inductive Weekday := MO | TU | WE | TH | FR | SA | SU.

Definition weekday_number (w : Weekday) : Z :=
  match w with
  | MO => 0 | TU => 1 | WE => 2 | TH => 3 | FR => 4 | SA => 5 | SU => 6
  end.

Module Rule.

(** The object [parseRRule] returns.  The handlers read [frequency],
    [interval], [days_of_week] and [count]; [until] is the UNTIL bound of
    the rule grammar.  [count = None] stands for an absent COUNT. *)
Record t := mk {
  frequency : Frequency;
  interval : Z;
  count : option Z;
  until : option date;
  days_of_week : list Weekday
}.

End Rule.

(** ** Rows *)

Module Event.

(** A row of [Recurring_Events] (the columns the handlers bind). *)
Record t := mk {
  id : Z;
  title : string;
  description : option string;
  start_date : date;
  end_date : date;
  frequency : option Frequency;
  interval : option Z;
  days_of_week : option (list Weekday);
  start_time : string;
  end_time : option string;
  location : Z
}.

End Event.

Module Generated.

(** An element of the array [generateInstances] returns: the eight values
    the handlers bind into the instance INSERT. *)
Record t := mk {
  recurring_event_id : Z;
  instance_date : date;
  start_time : string;
  end_time : option string;
  title : string;
  description : option string;
  location : Z;
  is_cancelled : bool
}.

End Generated.

(** ** InstanceMaterializer

    The routes call [generateInstances(event, rule, count)]; its body is not
    part of the sources.  This section follows section 4.2 of the
    specification. *)

Section Materializer.

Variable r : Rule.t.
Variable anchor : date.

Definition on_weekday (d : date) (ds : list Weekday) : bool :=
  existsb (fun w => weekday_number w =? Calendar.weekday_index d) ds.

(** Index of the week of [d], weeks starting on Monday, the anchor's week
    being week 0. *)
Definition week_of (d : date) : Z :=
  (d - (anchor - Calendar.weekday_index anchor)) / 7.

(** Modelled from the spec: the stepping of [generateInstances], whose body
    is missing.  The [i]-th candidate date, or [None] when step [i] yields
    no date: step by [interval] days, weeks, months or years from the
    anchor; with BYDAY, every day of every [interval]-th week that falls on
    a listed weekday; a day of month that does not exist is skipped. *)
Definition candidate (i : Z) : option date :=
  match Rule.frequency r with
  | daily => Some (anchor + i * Rule.interval r)
  | weekly =>
      match Rule.days_of_week r with
      | [] => Some (anchor + 7 * (i * Rule.interval r))
      | ds =>
          let d := anchor + i in
          if on_weekday d ds && (week_of d mod Rule.interval r =? 0)
          then Some d else None
      end
  | monthly =>
      let '(y, m, dd) := Calendar.civil_from_days anchor in
      let k := (m - 1) + i * Rule.interval r in
      let y' := y + k / 12 in
      let m' := k mod 12 + 1 in
      if dd <=? Calendar.days_in_month y' m'
      then Some (Calendar.days_from_civil y' m' dd) else None
  | yearly =>
      let '(y, m, dd) := Calendar.civil_from_days anchor in
      let y' := y + i * Rule.interval r in
      if dd <=? Calendar.days_in_month y' m
      then Some (Calendar.days_from_civil y' m dd) else None
  end.

Definition past_until (d : date) : bool :=
  match Rule.until r with
  | Some u => u <? d
  | None => false
  end.

(** Modelled from the spec: the stopping rule of [generateInstances], whose
    body is missing.  Walk the candidates from index [i], keeping the dates
    that exist, until [n] occurrences are produced or a date exceeds UNTIL.
    [fuel] bounds the number of candidates looked at. *)
Fixpoint scan (fuel : nat) (i : Z) (n : nat) : list date :=
  match fuel, n with
  | O, _ => []
  | _, O => []
  | S fuel', S n' =>
      match candidate i with
      | Some d => if past_until d then [] else d :: scan fuel' (i + 1) n'
      | None => scan fuel' (i + 1) n
      end
  end.

(** How many consecutive candidates can fail to give a date plus one: none
    for plain day and week steps; a BYDAY week window of [interval] weeks;
    the 400-year period of the calendar for month and year steps. *)
Definition stride : nat :=
  match Rule.frequency r, Rule.days_of_week r with
  | daily, _ => 1
  | weekly, [] => 1
  | weekly, _ => Z.to_nat (7 * Rule.interval r)
  | monthly, _ => 4800
  | yearly, _ => 4800
  end.

Definition occurrence_dates (n : Z) : list date :=
  scan (Z.to_nat n * stride) 0 (Z.to_nat n).

End Materializer.

(** Modelled from the spec: [generateInstances(event, rule, count)] is called
    by the create and update handlers but its body is not part of the
    sources.  Section 4.2 of the specification: start at the anchor's date
    (the template's [start_date]); step by [interval] units of FREQ; for
    WEEKLY with BYDAY enumerate the qualifying weekdays of every
    [interval]-th week in ascending order; for MONTHLY and YEARLY keep the
    anchor's day of month and skip dates that do not exist; stop at the
    first of COUNT occurrences produced or UNTIL exceeded (the call passes
    no horizon).  Every occurrence
    takes the template's title, description, location and times (start time
    plus the anchor's duration is the template's end time) and is not
    cancelled. *)
Definition generateInstances (ev : Event.t) (r : Rule.t) (n : Z)
  : list Generated.t :=
  map (fun d =>
         Generated.mk (Event.id ev) d (Event.start_time ev) (Event.end_time ev)
           (Event.title ev) (Event.description ev) (Event.location ev) false)
      (occurrence_dates r (Event.start_date ev) n).

(** [recurrenceRule.count || 10], the expression of both call sites of
    [generateInstances] (create and update): a missing or zero COUNT is
    replaced by 10. *)
Definition instanceCount (r : Rule.t) : Z :=
  match Rule.count r with
  | Some c => if c =? 0 then 10 else c
  | None => 10
  end.

(** ** Stored rows and the database *)

Inductive ExceptionKind := cancelled | modified.

Module Instance.

(** A row of [Event_Instances]. *)
Record t := mk {
  id : Z;
  recurring_event_id : Z;
  instance_date : date;
  start_time : string;
  end_time : option string;
  title : string;
  description : option string;
  location : Z;
  is_cancelled : bool
}.

Definition key (i : t) : Z * date := (recurring_event_id i, instance_date i).

End Instance.

Module Exception.

(** A row of [Event_Exceptions], with the columns the statements of
    [events.js] name.  The table the test setup declares has
    [exception_date] and [reason] in their place: on it these statements
    are refused. *)
Record t := mk {
  id : Z;
  recurring_event_id : Z;
  instance_date : date;
  exception_type : ExceptionKind
}.

End Exception.

(** The three tables.  Each [_seq] field is the AUTOINCREMENT counter of its
    table: the largest identifier ever handed out, never reused. *)
Record store := mkStore {
  Recurring_Events : list Event.t;
  Recurring_Events_seq : Z;
  Event_Instances : list Instance.t;
  Event_Instances_seq : Z;
  Event_Exceptions : list Exception.t;
  Event_Exceptions_seq : Z
}.

(** Rows of [Event_Instances] touched by a statement, as SQLite's
    [changes()] reports them, split by kind. *)
Record tally := mkTally { inserts : nat; updates : nat; deletes : nat }.

Definition no_change : tally := mkTally 0 0 0.

Definition add_tally (a b : tally) : tally :=
  mkTally (inserts a + inserts b) (updates a + updates b) (deletes a + deletes b).

(** The connection: the current contents, the contents saved by BEGIN while a
    transaction is open, the statement that is going to be refused (counted
    from the next one; [None] when none is), and the running tally of
    instance rows written. *)
Record db := mkDb {
  cur : store;
  snapshot : option store;
  fail_at : option nat;
  written : tally
}.

Definition connect (s : store) (fault : option nat) : db :=
  mkDb s None fault no_change.

(** The update and the delete handler read the template and then run BEGIN
    as their first statement.  Cloudflare D1 refuses the transaction
    statements BEGIN, COMMIT and ROLLBACK given to [prepare(..).run()]: on
    the binding of the deployment the first statement of these two handlers
    is the one refused. *)
Definition begin_refused : option nat := Some 0%nat.

Inductive outcome (A : Type) :=
| Ok (a : A)
| Throw (msg : string).
Arguments Ok {A} a.
Arguments Throw {A} msg.

Definition M (A : Type) : Type := db -> outcome A * db.

Definition ret {A} (a : A) : M A := fun d => (Ok a, d).

Definition bind {A B} (m : M A) (k : A -> M B) : M B :=
  fun d =>
    match m d with
    | (Ok a, d') => k a d'
    | (Throw e, d') => (Throw e, d')
    end.

Notation "x <- m ;; k" := (bind m (fun x => k))
  (at level 61, m at next level, right associativity).
Notation "m ;; k" := (bind m (fun _ => k))
  (at level 61, right associativity).

Definition throw {A} (msg : string) : M A := fun d => (Throw msg, d).

(** [try { body } catch (error) { handler }] *)
Definition try_catch {A} (body : M A) (handler : string -> M A) : M A :=
  fun d =>
    match body d with
    | (Ok a, d') => (Ok a, d')
    | (Throw e, d') => handler e d'
    end.

(** One [prepare(..).run()].  The statement is a partial function on the
    store ([None]: a constraint rejects it) reporting the instance rows it
    changed; the binding refuses it when the index of the connection has
    come to 0.  The text of the error is the binding's and is not
    modelled: properties are stated for any text. *)
Definition run (stmt : store -> option (store * tally)) : M unit :=
  fun d =>
    match fail_at d with
    | Some O => (Throw "storage error", mkDb (cur d) (snapshot d) None (written d))
    | f =>
        let f' := match f with Some (S k) => Some k | _ => None end in
        match stmt (cur d) with
        | Some (s', t) =>
            (Ok tt, mkDb s' (snapshot d) f' (add_tally (written d) t))
        | None =>
            (Throw "constraint failed", mkDb (cur d) (snapshot d) f' (written d))
        end
    end.

(** [prepare(..).first()] and [prepare(..).all()] of the handlers that only
    read and of the existence check the update and the delete handler make
    before their first statement: a read taken to succeed. *)
Definition query {A} (q : store -> A) : M A := fun d => (Ok (q (cur d)), d).

(** A statement that changes nothing. *)
Definition unchanged (s : store) : option (store * tally) :=
  Some (s, no_change).

(** [prepare(..).first()] and [prepare(..).all()] once a handler has begun
    to write: a read that the binding may refuse like any statement.  The
    two SELECTs that follow COMMIT in the update handler are of this kind:
    when one is refused the answer is an error though the update is
    committed. *)
Definition read {A} (q : store -> A) : M A := run unchanged ;; query q.

(** [BEGIN], [COMMIT] and [ROLLBACK] where the binding accepts them: writes
    go to [cur] at once; BEGIN remembers the contents to return to, ROLLBACK
    returns to them.  A ROLLBACK that follows a refused BEGIN finds no
    transaction and leaves the contents as they are, whether the binding
    runs it or refuses it too. *)
Definition BEGIN : M unit :=
  fun d =>
    match fail_at d with
    | Some O => (Throw "storage error", mkDb (cur d) (snapshot d) None (written d))
    | f =>
        let f' := match f with Some (S k) => Some k | _ => None end in
        (Ok tt, mkDb (cur d) (Some (cur d)) f' (written d))
    end.

Definition COMMIT : M unit :=
  fun d =>
    match fail_at d with
    | Some O => (Throw "storage error", mkDb (cur d) (snapshot d) None (written d))
    | f =>
        let f' := match f with Some (S k) => Some k | _ => None end in
        (Ok tt, mkDb (cur d) None f' (written d))
    end.

Definition ROLLBACK : M unit :=
  fun d =>
    match snapshot d with
    | Some s => (Ok tt, mkDb s None (fail_at d) (written d))
    | None => (Ok tt, d)
    end.

(** ** Statements

    What each statement of [events.js] does when it is accepted.  The
    clauses [ON CONFLICT(recurring_event_id, instance_date)] and
    [INSERT OR IGNORE] have their effect on tables where the pair
    [(recurring_event_id, instance_date)] is a unique key; the tables the
    sources declare have no such key ([Schema] below), and there the
    statement is one the binding refuses. *)

Module Sql.

Definition touched (s : store) : option (store * tally) := Some (s, no_change).

(** [frequency TEXT CHECK(frequency IN ('daily', 'weekly', 'monthly',
    'yearly')) NOT NULL]: the column takes no NULL; the four values of the
    CHECK are those of [Frequency]. *)
Definition has_frequency (e : Event.t) : bool :=
  match Event.frequency e with Some _ => true | None => false end.

(** [INSERT INTO Recurring_Events (..) VALUES (..)]; the argument builds the
    row from the identifier the table hands out. *)
Definition insert_event (row : Z -> Event.t) (s : store)
  : option (store * tally) :=
  let i := Recurring_Events_seq s + 1 in
  if has_frequency (row i) then
    touched (mkStore (Recurring_Events s ++ [row i]) i
               (Event_Instances s) (Event_Instances_seq s)
               (Event_Exceptions s) (Event_Exceptions_seq s))
  else None.

(** [UPDATE Recurring_Events SET .. WHERE id = ?] *)
Definition update_event (eventId : Z) (row : Z -> Event.t) (s : store)
  : option (store * tally) :=
  if existsb (fun e => (Event.id e =? eventId)
                       && negb (has_frequency (row (Event.id e))))
             (Recurring_Events s)
  then None
  else
    touched (mkStore
               (map (fun e => if Event.id e =? eventId then row (Event.id e) else e)
                    (Recurring_Events s))
               (Recurring_Events_seq s)
               (Event_Instances s) (Event_Instances_seq s)
               (Event_Exceptions s) (Event_Exceptions_seq s)).

(** [SELECT * FROM Recurring_Events WHERE id = ?] with [.first()] *)
Definition select_event (eventId : Z) (s : store) : option Event.t :=
  find (fun e => Event.id e =? eventId) (Recurring_Events s).

(** [DELETE FROM Event_Instances WHERE ..] *)
Definition delete_instances (cond : Instance.t -> bool) (s : store)
  : option (store * tally) :=
  Some (mkStore (Recurring_Events s) (Recurring_Events_seq s)
          (filter (fun i => negb (cond i)) (Event_Instances s))
          (Event_Instances_seq s)
          (Event_Exceptions s) (Event_Exceptions_seq s),
        mkTally 0 0 (List.length (filter cond (Event_Instances s)))).

Definition mark (v : bool) (i : Instance.t) : Instance.t :=
  Instance.mk (Instance.id i) (Instance.recurring_event_id i)
    (Instance.instance_date i) (Instance.start_time i)
    (Instance.end_time i) (Instance.title i)
    (Instance.description i) (Instance.location i) v.

(** [UPDATE Event_Instances SET is_cancelled = ? WHERE ..] *)
Definition set_cancelled (v : bool) (cond : Instance.t -> bool) (s : store)
  : option (store * tally) :=
  Some (mkStore (Recurring_Events s) (Recurring_Events_seq s)
          (map (fun i => if cond i then mark v i else i) (Event_Instances s))
          (Event_Instances_seq s)
          (Event_Exceptions s) (Event_Exceptions_seq s),
        mkTally 0 (List.length (filter cond (Event_Instances s))) 0).

(** [UPDATE Event_Instances SET is_cancelled = 1 WHERE ..] *)
Definition cancel_instances := set_cancelled true.

Definition same_key (g : Generated.t) (i : Instance.t) : bool :=
  (Instance.recurring_event_id i =? Generated.recurring_event_id g)
  && (Instance.instance_date i =? Generated.instance_date g).

(** [recurring_event_id = ? AND instance_date = ?] *)
Definition on_date (eventId : Z) (d : date) (i : Instance.t) : bool :=
  (Instance.recurring_event_id i =? eventId) && (Instance.instance_date i =? d).

Definition new_instance (g : Generated.t) (i : Z) : Instance.t :=
  Instance.mk i (Generated.recurring_event_id g) (Generated.instance_date g)
    (Generated.start_time g) (Generated.end_time g) (Generated.title g)
    (Generated.description g) (Generated.location g) (Generated.is_cancelled g).

Definition append_instance (g : Generated.t) (s : store) : store :=
  let i := Event_Instances_seq s + 1 in
  mkStore (Recurring_Events s) (Recurring_Events_seq s)
    (Event_Instances s ++ [new_instance g i]) i
    (Event_Exceptions s) (Event_Exceptions_seq s).

(** [INSERT INTO Event_Instances (..) VALUES (..)] on a table whose pair
    [(recurring_event_id, instance_date)] is a unique key: a second row
    with the pair is refused.  On the table as declared see
    [Schema.insert]. *)
Definition insert_instance (g : Generated.t) (s : store)
  : option (store * tally) :=
  if existsb (same_key g) (Event_Instances s) then None
  else Some (append_instance g s, mkTally 1 0 0).

(** The row after [DO UPDATE SET start_time = excluded.start_time,
    end_time = .., title = .., description = .., location = ..]:
    [id] and [is_cancelled] stay. *)
Definition overwrite (g : Generated.t) (i : Instance.t) : Instance.t :=
  Instance.mk (Instance.id i) (Instance.recurring_event_id i)
    (Instance.instance_date i) (Generated.start_time g) (Generated.end_time g)
    (Generated.title g) (Generated.description g) (Generated.location g)
    (Instance.is_cancelled i).

(** [INSERT INTO Event_Instances (..) VALUES (..)
     ON CONFLICT(recurring_event_id, instance_date) DO UPDATE SET ..] on a
    table whose pair is a unique key.  The identifier of the row to insert
    is drawn before the conflict is seen: the counter advances also when
    the stored row is updated instead. *)
Definition upsert_instance (g : Generated.t) (s : store)
  : option (store * tally) :=
  if existsb (same_key g) (Event_Instances s) then
    Some (mkStore (Recurring_Events s) (Recurring_Events_seq s)
            (map (fun i => if same_key g i then overwrite g i else i)
                 (Event_Instances s))
            (Event_Instances_seq s + 1)
            (Event_Exceptions s) (Event_Exceptions_seq s),
          mkTally 0 (List.length (filter (same_key g) (Event_Instances s))) 0)
  else Some (append_instance g s, mkTally 1 0 0).

(** [SELECT instance_date FROM Event_Exceptions WHERE recurring_event_id = ?] *)
Definition exception_dates (eventId : Z) (s : store) : list date :=
  map Exception.instance_date
      (filter (fun x => Exception.recurring_event_id x =? eventId)
              (Event_Exceptions s)).

Definition mem_date (d : date) (ds : list date) : bool :=
  existsb (fun d' => d' =? d) ds.

(** [DELETE FROM Event_Exceptions WHERE ..] *)
Definition delete_exceptions (cond : Exception.t -> bool) (s : store)
  : option (store * tally) :=
  touched (mkStore (Recurring_Events s) (Recurring_Events_seq s)
             (Event_Instances s) (Event_Instances_seq s)
             (filter (fun x => negb (cond x)) (Event_Exceptions s))
             (Event_Exceptions_seq s)).

Definition excepts (eventId : Z) (d : date) (x : Exception.t) : bool :=
  (Exception.recurring_event_id x =? eventId)
  && (Exception.instance_date x =? d).

Definition has_exception (eventId : Z) (d : date) (s : store) : bool :=
  existsb (excepts eventId d) (Event_Exceptions s).

(** [INSERT OR IGNORE INTO Event_Exceptions (recurring_event_id,
    instance_date, exception_type) VALUES (?, ?, 'cancelled')].  No
    declaration of the sources has the columns this statement names; the
    key is modelled from the spec (section 6: the exception table has a
    unique (template, date) constraint): the row is dropped when the pair
    is taken, the identifier drawn for it being spent. *)
Definition insert_or_ignore_exception (eventId : Z) (d : date) (s : store)
  : option (store * tally) :=
  if has_exception eventId d s
  then touched (mkStore (Recurring_Events s) (Recurring_Events_seq s)
                  (Event_Instances s) (Event_Instances_seq s)
                  (Event_Exceptions s) (Event_Exceptions_seq s + 1))
  else
    let i := Event_Exceptions_seq s + 1 in
    touched (mkStore (Recurring_Events s) (Recurring_Events_seq s)
               (Event_Instances s) (Event_Instances_seq s)
               (Event_Exceptions s ++ [Exception.mk i eventId d cancelled]) i).

(** [DELETE FROM Recurring_Events WHERE id = ?]; the foreign keys of both
    child tables are declared ON DELETE CASCADE. *)
Definition delete_event (eventId : Z) (s : store) : option (store * tally) :=
  Some (mkStore
          (filter (fun e => negb (Event.id e =? eventId)) (Recurring_Events s))
          (Recurring_Events_seq s)
          (filter (fun i => negb (Instance.recurring_event_id i =? eventId))
                  (Event_Instances s))
          (Event_Instances_seq s)
          (filter (fun x => negb (Exception.recurring_event_id x =? eventId))
                  (Event_Exceptions s))
          (Event_Exceptions_seq s),
        mkTally 0 0
          (List.length (filter (fun i => Instance.recurring_event_id i =? eventId)
                          (Event_Instances s)))).

Fixpoint insert_by_date (i : Instance.t) (l : list Instance.t)
  : list Instance.t :=
  match l with
  | [] => [i]
  | j :: l' =>
      if Instance.instance_date i <? Instance.instance_date j
      then i :: l else j :: insert_by_date i l'
  end.

(** [SELECT * FROM Event_Instances WHERE recurring_event_id = ?
     ORDER BY instance_date ASC] *)
Definition select_instances (eventId : Z) (s : store) : list Instance.t :=
  fold_right insert_by_date []
    (filter (fun i => Instance.recurring_event_id i =? eventId)
            (Event_Instances s)).

End Sql.

(** ** Requests and responses *)

(** An ISO date-time ['YYYY-MM-DDTHH:MM:SS..'] split at ['T']: the date part
    and the text that follows. *)
Record datetime := mkDateTime { dt_date : date; dt_time : string }.

Module Request.

(** The JSON body of a create or update request.  [None] is an absent
    field. *)
Record t := mk {
  title : option string;
  description : option string;
  startTime : option datetime;
  endTime : option datetime;
  venueId : option Z;
  recurrenceRule : option string;
  updateScope : option string
}.

End Request.

Inductive payload :=
| ErrorBody (error : string)
| EventBody (event : option Event.t) (instances : list Instance.t)
| DeleteBody (success : bool) (message : string) (scope : string).

Record response := mkResponse { status : Z; body : payload }.

Definition jsonResponse (data : payload) (status : Z) : response :=
  mkResponse status data.

Definition errorResponse (message : string) (status : Z) : response :=
  jsonResponse (ErrorBody message) status.

(** JavaScript truthiness of the values a field can hold. *)
Definition truthy_string (o : option string) : bool :=
  match o with
  | Some s => negb (s =? "")%string
  | None => false
  end.

Definition truthy_number (o : option Z) : bool :=
  match o with
  | Some n => negb (n =? 0)
  | None => false
  end.

Definition truthy {A} (o : option A) : bool :=
  match o with Some _ => true | None => false end.

(** [x || fallback] on strings. *)
Definition or_else (o : option string) (fallback : string) : string :=
  if truthy_string o then match o with Some s => s | None => fallback end
  else fallback.

(** [validateRequiredFields(data, ['title','startTime','endTime','venueId'])]
    as the handlers use it ([if (missingFields) return errorResponse(..)]):
    [fields.filter(field => !data[field])], and the message naming the
    fields whose value is falsy, or [null]. *)
Definition validateRequiredFields (data : Request.t) : option string :=
  let missingFields : list string :=
    ((if truthy_string (Request.title data) then [] else ["title"])
     ++ (if truthy (Request.startTime data) then [] else ["startTime"])
     ++ (if truthy (Request.endTime data) then [] else ["endTime"])
     ++ (if truthy_number (Request.venueId data) then [] else ["venueId"]))%list in
  match missingFields with
  | [] => None
  | _ => Some ("Missing required fields: " ++ String.concat ", " missingFields)
  end.

Fixpoint for_each {A} (l : list A) (f : A -> M unit) : M unit :=
  match l with
  | [] => ret tt
  | x :: l' => f x ;; for_each l' f
  end.


(** ** ScopedMutationCoordinator: the route handlers *)

(** How far the listing of the create handler goes: it has answered, or it
    has inserted the template, read it back and, for a recurring event,
    generated the instances it is about to insert. *)
Inductive progress :=
| Answered (r : response)
| Inserted (newEventResult : option Event.t)
           (instances : option (list Generated.t)).

Section Handlers.

(** [parseRRule(text)]: the rule, or the message of the error it throws.
    It is imported by the routes and not part of the sources. *)
Variable parseRRule : string -> string + Rule.t.

(** [new Date().toISOString().split('T')[0]] *)
Variable today : date.

(** The values both handlers bind for the template row. *)
Definition template_row (data : Request.t) (recurrenceRule : option Rule.t)
           (title : string) (st et : datetime) (venueId : Z) (i : Z)
  : Event.t :=
  Event.mk i title
    (if truthy_string (Request.description data)
     then Request.description data else None)
    (dt_date st) (dt_date et)
    (option_map Rule.frequency recurrenceRule)
    (option_map Rule.interval recurrenceRule)
    (option_map Rule.days_of_week recurrenceRule)
    (substring 0 8 (dt_time st))
    (Some (substring 0 8 (dt_time et)))
    venueId.

(** [if (data.recurrenceRule) { try { parseRRule(..) } catch .. }] *)
Definition parse_recurrence (data : Request.t) : string + option Rule.t :=
  if truthy_string (Request.recurrenceRule data) then
    match parseRRule (or_else (Request.recurrenceRule data) "") with
    | inl message => inl message
    | inr rule => inr (Some rule)
    end
  else inr None.

(** [eventsRouter.post('/api/events', ..)], lines 5 to 82: the body of its
    [try] as far as the listing goes.  The template is inserted by the
    first statement the handler runs; no BEGIN precedes it. *)
Definition create_visible (json : option Request.t) : M progress :=
  match json with
  | None => ret (Answered (errorResponse "Invalid JSON in request body" 400))
  | Some data =>
  match validateRequiredFields data with
  | Some missingFields => ret (Answered (errorResponse missingFields 400))
  | None =>
  match parse_recurrence data with
  | inl message =>
      ret (Answered
             (errorResponse ("Invalid recurrence rule: " ++ message) 400))
  | inr recurrenceRule =>
  match Request.title data, Request.startTime data,
        Request.endTime data, Request.venueId data with
  | Some title, Some st, Some et, Some venueId =>
      run (Sql.insert_event
             (template_row data recurrenceRule title st et venueId)) ;;
      newEventResult <-
        read (fun s => Sql.select_event (Recurring_Events_seq s) s) ;;
      match recurrenceRule, newEventResult with
      | Some rule, Some ev =>
          ret (Inserted newEventResult
                 (Some (generateInstances ev rule (instanceCount rule))))
      | _, _ => ret (Inserted newEventResult None)
      end
  | _, _, _, _ => throw "TypeError"
  end end end end.

(** Modelled from the spec: the listing of the create handler breaks off
    inside the text of the instance INSERT; the loop over the generated
    instances, the response and the [catch] of the handler are missing.
    Section 6 of the specification: create returns the template and its
    materialized instances; the comments of the listing say "Insert
    instances" and "returns Created event and its instances".  The status
    and the message of the error are those of the sibling handlers. *)
Definition create_rest (newEventResult : option Event.t)
           (instances : option (list Generated.t)) : M response :=
  match instances, newEventResult with
  | Some generated, Some ev =>
      for_each generated (fun instance =>
        run (Sql.insert_instance instance)) ;;
      created <- read (Sql.select_instances (Event.id ev)) ;;
      ret (jsonResponse (EventBody newEventResult created) 200)
  | _, _ => ret (jsonResponse (EventBody newEventResult []) 200)
  end.

(** [eventsRouter.post('/api/events', ..)]: the listed part followed by the
    modelled rest. *)
Definition post_api_events (json : option Request.t) : M response :=
  try_catch
    (reached <- create_visible json ;;
     match reached with
     | Answered r => ret r
     | Inserted newEventResult instances =>
         create_rest newEventResult instances
     end)
    (fun error =>
       ret (errorResponse ("Error creating recurring event: " ++ error) 500)).

(** The DELETE the update handler runs for its scope (lines 284 to 306);
    the exception dates are the subquery of the statement. *)
Definition delete_stale (eventId : Z) (updateScope : string) : M unit :=
  if (updateScope =? "all")%string then
    excepted <- query (Sql.exception_dates eventId) ;;
    run (Sql.delete_instances (fun i =>
           (Instance.recurring_event_id i =? eventId)
           && negb (Sql.mem_date (Instance.instance_date i) excepted)))
  else if (updateScope =? "thisAndFuture")%string then
    excepted <- query (Sql.exception_dates eventId) ;;
    run (Sql.delete_instances (fun i =>
           (Instance.recurring_event_id i =? eventId)
           && (today <=? Instance.instance_date i)
           && negb (Sql.mem_date (Instance.instance_date i) excepted)))
  else ret tt.

(** [if (recurrenceRule) { .. }] of the update handler (lines 309 to
    353). *)
Definition regenerate (eventId : Z) (updateScope : string)
           (recurrenceRule : option Rule.t) : M unit :=
  match recurrenceRule with
  | Some rule =>
      updatedEvent <- read (Sql.select_event eventId) ;;
      match updatedEvent with
      | Some ev =>
          let instances := generateInstances ev rule (instanceCount rule) in
          for_each instances (fun instance =>
            if (updateScope =? "thisAndFuture")%string
               && (Generated.instance_date instance <? today)
            then ret tt
            else run (Sql.upsert_instance instance))
      | None => throw "TypeError"
      end
  | None => ret tt
  end.

(** What the update handler runs between BEGIN and COMMIT. *)
Definition update_statements (eventId : Z) (row : Z -> Event.t)
           (updateScope : string) (recurrenceRule : option Rule.t) : M unit :=
  run (Sql.update_event eventId row) ;;
  delete_stale eventId updateScope ;;
  regenerate eventId updateScope recurrenceRule.

(** [eventsRouter.put('/api/events/:id', ..)] *)
Definition put_api_events (eventId : Z) (json : option Request.t)
  : M response :=
  try_catch
    (match json with
     | None => ret (errorResponse "Invalid JSON in request body" 400)
     | Some data =>
     match validateRequiredFields data with
     | Some missingFields => ret (errorResponse missingFields 400)
     | None =>
     existingEvent <- query (Sql.select_event eventId) ;;
     match existingEvent with
     | None => ret (errorResponse "Event not found" 404)
     | Some _ =>
     match parse_recurrence data with
     | inl message =>
         ret (errorResponse ("Invalid recurrence rule: " ++ message) 400)
     | inr recurrenceRule =>
     match Request.title data, Request.startTime data,
           Request.endTime data, Request.venueId data with
     | Some title, Some st, Some et, Some venueId =>
         let updateScope := or_else (Request.updateScope data) "all" in
         try_catch
           (BEGIN ;;
            update_statements eventId
              (template_row data recurrenceRule title st et venueId)
              updateScope recurrenceRule ;;
            COMMIT ;;
            updatedEvent <- read (Sql.select_event eventId) ;;
            updatedInstances <- read (Sql.select_instances eventId) ;;
            ret (jsonResponse (EventBody updatedEvent updatedInstances) 200))
           (fun error => ROLLBACK ;; throw error)
     | _, _, _, _ => throw "TypeError"
     end end end end end)
    (fun error =>
       ret (errorResponse ("Error updating recurring event: " ++ error) 500)).

(** What the delete handler runs between BEGIN and COMMIT (lines 416 to
    478). *)
Definition delete_statements (eventId : Z) (deleteScope : string)
           (instanceDate : option date) : M unit :=
  if (deleteScope =? "all")%string then
    run (Sql.delete_instances (fun i =>
           Instance.recurring_event_id i =? eventId)) ;;
    run (Sql.delete_exceptions (fun x =>
           Exception.recurring_event_id x =? eventId)) ;;
    run (Sql.delete_event eventId)
  else
    match (deleteScope =? "thisAndFuture")%string, instanceDate with
    | true, Some d =>
        run (Sql.cancel_instances (fun i =>
               (Instance.recurring_event_id i =? eventId)
               && (d <=? Instance.instance_date i))) ;;
        futureDates <-
          read (fun s =>
                  map Instance.instance_date
                    (filter (fun i =>
                       (Instance.recurring_event_id i =? eventId)
                       && (d <=? Instance.instance_date i))
                       (Event_Instances s))) ;;
        for_each futureDates (fun dateObj =>
          run (Sql.insert_or_ignore_exception eventId dateObj))
    | _, _ =>
        match (deleteScope =? "this")%string, instanceDate with
        | true, Some d =>
            run (Sql.cancel_instances (Sql.on_date eventId d)) ;;
            run (Sql.insert_or_ignore_exception eventId d)
        | _, _ => ret tt
        end
    end.

(** [eventsRouter.delete('/api/events/:id', ..)].  [deleteScope] and
    [instanceDate] are the query parameters; an [instanceDate] that is
    absent or empty is [None]. *)
Definition delete_api_events (eventId : Z) (scopeParam : option string)
           (instanceDate : option date) : M response :=
  try_catch
    (let deleteScope := or_else scopeParam "all" in
     existingEvent <- query (Sql.select_event eventId) ;;
     match existingEvent with
     | None => ret (errorResponse "Event not found" 404)
     | Some _ =>
         try_catch
           (BEGIN ;;
            delete_statements eventId deleteScope instanceDate ;;
            COMMIT ;;
            ret (jsonResponse
                   (DeleteBody true
                      ("Event "
                       ++ (if (deleteScope =? "all")%string
                           then "deleted" else "cancelled")
                       ++ " successfully")
                      deleteScope)
                   200))
           (fun error => ROLLBACK ;; throw error)
     end)
    (fun error =>
       ret (errorResponse ("Error deleting recurring event: " ++ error) 500)).

End Handlers.

(** ** RuleParser *)

Module RuleParser.

Fixpoint split_on (c : ascii) (s : string) : list string :=
  match s with
  | EmptyString => [EmptyString]
  | String a s' =>
      if Ascii.eqb a c then EmptyString :: split_on c s'
      else match split_on c s' with
           | [] => [String a EmptyString]
           | h :: t => String a h :: t
           end
  end.

Definition digit (a : ascii) : option Z :=
  let n := Z.of_nat (nat_of_ascii a) in
  if (48 <=? n) && (n <=? 57) then Some (n - 48) else None.

Fixpoint number_from (acc : Z) (s : string) : option Z :=
  match s with
  | EmptyString => Some acc
  | String a s' =>
      match digit a with
      | Some d => number_from (10 * acc + d) s'
      | None => None
      end
  end.

Definition positive_integer (s : string) : option Z :=
  match s with
  | EmptyString => None
  | _ => match number_from 0 s with
         | Some n => if 0 <? n then Some n else None
         | None => None
         end
  end.

Definition frequency_of (s : string) : option Frequency :=
  if (s =? "DAILY")%string then Some daily
  else if (s =? "WEEKLY")%string then Some weekly
  else if (s =? "MONTHLY")%string then Some monthly
  else if (s =? "YEARLY")%string then Some yearly
  else None.

Definition weekday_of (s : string) : option Weekday :=
  if (s =? "MO")%string then Some MO
  else if (s =? "TU")%string then Some TU
  else if (s =? "WE")%string then Some WE
  else if (s =? "TH")%string then Some TH
  else if (s =? "FR")%string then Some FR
  else if (s =? "SA")%string then Some SA
  else if (s =? "SU")%string then Some SU
  else None.

Fixpoint weekdays_of (l : list string) : option (list Weekday) :=
  match l with
  | [] => Some []
  | s :: l' =>
      match weekday_of s, weekdays_of l' with
      | Some w, Some ws => Some (w :: ws)
      | _, _ => None
      end
  end.

(** ['YYYY-MM-DD'] *)
Definition date_of (s : string) : option date :=
  match split_on "-" s with
  | [y; m; d] =>
      match positive_integer y, positive_integer m, positive_integer d with
      | Some y, Some m, Some d =>
          if (m <=? 12) && (d <=? Calendar.days_in_month y m)
          then Some (Calendar.days_from_civil y m d) else None
      | _, _, _ => None
      end
  | _ => None
  end.

Definition pairs (text : string) : list (string * string) :=
  map (fun part =>
         match split_on "=" part with
         | k :: v :: _ => (k, v)
         | [k] => (k, EmptyString)
         | [] => (EmptyString, EmptyString)
         end)
      (split_on ";" text).

Definition lookup (k : string) (kv : list (string * string)) : option string :=
  option_map snd (find (fun p => (fst p =? k)%string) kv).

(** An optional part: absent, malformed, or a value. *)
Definition optional {A} (k : string) (read : string -> option A)
           (kv : list (string * string)) : option (option A) :=
  match lookup k kv with
  | None => Some None
  | Some v => option_map Some (read v)
  end.

(** Modelled from the spec: [parseRRule] is imported by the routes and its
    body is not part of the sources.  Section 4.1 and 6 of the
    specification: a semicolon-delimited key=value text with required FREQ
    (DAILY, WEEKLY, MONTHLY, YEARLY) and optional INTERVAL (positive
    integer, default 1), COUNT (positive integer) or UNTIL (ISO date), and
    BYDAY (comma-separated weekday abbreviations); it fails when FREQ is
    missing or unrecognized, when COUNT and UNTIL are both supplied, or
    when BYDAY holds an unrecognized token. *)
Definition parseRRule (text : string) : string + Rule.t :=
  let kv := pairs text in
  match lookup "FREQ" kv with
  | None => inl "FREQ is required"
  | Some f =>
  match frequency_of f with
  | None => inl "unrecognized FREQ"
  | Some freq =>
  match optional "INTERVAL" positive_integer kv with
  | None => inl "INTERVAL must be a positive integer"
  | Some interval =>
  match optional "COUNT" positive_integer kv with
  | None => inl "COUNT must be a positive integer"
  | Some count =>
  match optional "UNTIL" date_of kv with
  | None => inl "UNTIL must be a date"
  | Some until =>
  match optional "BYDAY" (fun v => weekdays_of (split_on "," v)) kv with
  | None => inl "unrecognized BYDAY"
  | Some byday =>
      match count, until with
      | Some _, Some _ => inl "COUNT and UNTIL are mutually exclusive"
      | _, _ =>
          inr (Rule.mk freq
                 (match interval with Some n => n | None => 1 end)
                 count until
                 (match byday with Some ws => ws | None => [] end))
      end
  end end end end end end.

End RuleParser.


(** ** The declared instance table *)

Module Schema.

(** What a CREATE TABLE statement declares about keys. *)
Record table := mk {
  name : string;
  columns : list string;
  primary_key : list string;
  unique : list (list string);
  references_template : list string
}.

(** [CREATE TABLE IF NOT EXISTS Event_Instances (..)] of the test setup,
    the only declaration of the instance table in the sources: an
    AUTOINCREMENT primary key [id], a foreign key from
    [recurring_event_id] to [Recurring_Events(id)], and no UNIQUE clause.
    The two indexes created on the table ([idx_event_instances_date],
    [idx_event_instances_recurring]) are plain, not UNIQUE. *)
Definition Event_Instances : table :=
  mk "Event_Instances"
     ["id"; "recurring_event_id"; "instance_date"; "start_time"; "end_time";
      "title"; "description"; "location"; "is_cancelled"; "created_at";
      "updated_at"]
     ["id"]
     []
     ["recurring_event_id"].

Definition same_columns (a b : list string) : bool :=
  if list_eq_dec string_dec a b then true else false.

(** Whether [target] is the primary key or a declared unique key. *)
Definition is_key (t : table) (target : list string) : bool :=
  same_columns target (primary_key t)
  || existsb (same_columns target) (unique t).

Definition pair : list string := ["recurring_event_id"; "instance_date"].

(** [FOREIGN KEY (recurring_event_id) REFERENCES Recurring_Events(id)]: the
    row names a template the store holds. *)
Definition template_exists (t : table) (g : Generated.t) (s : store) : bool :=
  match references_template t with
  | [] => true
  | _ => existsb (fun e => Event.id e =? Generated.recurring_event_id g)
                 (Recurring_Events s)
  end.

(** [INSERT INTO Event_Instances (..) VALUES (..)] against a declaration:
    a row for a template that does not exist is refused; a row whose pair
    is taken is refused only when the pair is a key. *)
Definition insert (t : table) (g : Generated.t) (s : store)
  : option (store * tally) :=
  if negb (template_exists t g s) then None
  else if is_key t pair then Sql.insert_instance g s
  else Some (Sql.append_instance g s, mkTally 1 0 0).

(** [INSERT .. ON CONFLICT(recurring_event_id, instance_date) DO UPDATE ..]
    against a declaration: SQLite refuses the statement when the conflict
    target is neither the primary key nor a unique key. *)
Definition upsert (t : table) (g : Generated.t) (s : store)
  : option (store * tally) :=
  if is_key t pair then
    if negb (template_exists t g s) then None else Sql.upsert_instance g s
  else None.

End Schema.

(** ** Sample data *)

Module Sample.

(** 2025-04-01, a Tuesday. *)
Definition day0 : date := Eval cbv in Calendar.days_from_civil 2025 4 1.

Definition request (rule : string) (scope : option string) : Request.t :=
  Request.mk (Some "Test Recurring Event") (Some "Test Description")
    (Some (mkDateTime day0 "10:00:00Z")) (Some (mkDateTime day0 "11:00:00Z"))
    (Some 1) (Some rule) scope.

Definition retitled (title rule : string) (scope : option string)
  : Request.t :=
  Request.mk (Some title) (Some "Test Description")
    (Some (mkDateTime day0 "10:00:00Z")) (Some (mkDateTime day0 "11:00:00Z"))
    (Some 1) (Some rule) scope.

Definition weekly4 : Rule.t := Rule.mk weekly 1 (Some 4) None [].

Definition template : Event.t :=
  Event.mk 1 "Test Recurring Event" (Some "Test Description") day0 day0
    (Some weekly) (Some 1) (Some []) "10:00:00" (Some "11:00:00") 1.

Definition empty : store := mkStore [] 0 [] 0 [] 0.

(** The instance of the template on the day [day0 + offset], under the
    identifier [i]. *)
Definition instance (i offset : Z) : Instance.t :=
  Instance.mk i 1 (day0 + offset) "10:00:00" (Some "11:00:00")
    "Test Recurring Event" (Some "Test Description") 1 false.

(** The store of the scenario of the test suite: the template created from
    [request "FREQ=WEEKLY;COUNT=4"] with its four weekly instances from
    2025-04-01, and no exception. *)
Definition created : store :=
  mkStore [template] 1
    [instance 1 0; instance 2 7; instance 3 14; instance 4 21] 4
    [] 0.

End Sample.


(** ** Reading handlers *)

(** [eventsRouter.get('/api/events/:id', ..)] *)
Definition get_api_events_id (eventId : Z) : M response :=
  try_catch
    (event <- query (Sql.select_event eventId) ;;
     match event with
     | None => ret (errorResponse "Event not found" 404)
     | Some _ =>
         instances <- query (Sql.select_instances eventId) ;;
         ret (jsonResponse (EventBody event instances) 200)
     end)
    (fun error =>
       ret (errorResponse ("Error retrieving event: " ++ error) 500)).

Module Select.

Fixpoint insert_by_start_desc (e : Event.t) (l : list Event.t) : list Event.t :=
  match l with
  | [] => [e]
  | f :: l' =>
      if Event.start_date f <? Event.start_date e
      then e :: l else f :: insert_by_start_desc e l'
  end.

(** [SELECT * FROM Recurring_Events ORDER BY start_date DESC] *)
Definition by_start_date_desc (l : list Event.t) : list Event.t :=
  fold_right insert_by_start_desc [] l.

(** [LIMIT ? OFFSET ?]: SQLite reads a negative LIMIT as no limit and a
    negative OFFSET as 0. *)
Definition page {A} (limit offset : Z) (l : list A) : list A :=
  let rest := skipn (Z.to_nat offset) l in
  if limit <? 0 then rest else firstn (Z.to_nat limit) rest.

(** [instance_date >= DATE('now') AND is_cancelled = 0] *)
Definition is_upcoming (today : date) (i : Instance.t) : bool :=
  (today <=? Instance.instance_date i) && negb (Instance.is_cancelled i).

Fixpoint minimum (l : list date) : option date :=
  match l with
  | [] => None
  | d :: l' =>
      match minimum l' with
      | Some m => Some (Z.min d m)
      | None => Some d
      end
  end.

(** The row of the inner SELECT for one template:
    [MIN(instance_date) as next_date .. GROUP BY recurring_event_id]. *)
Definition next_date (today : date) (eventId : Z) (s : store) : option date :=
  minimum
    (map Instance.instance_date
       (filter (fun i => (Instance.recurring_event_id i =? eventId)
                         && is_upcoming today i)
               (Event_Instances s))).

Definition mem_id (x : Z) (l : list Z) : bool := existsb (fun y => y =? x) l.

(** [SELECT i.* FROM Event_Instances i JOIN (..) n
     ON i.recurring_event_id = n.recurring_event_id
     AND i.instance_date = n.next_date], the inner SELECT being restricted
    to [recurring_event_id IN (eventIds)]. *)
Definition upcoming (today : date) (eventIds : list Z) (s : store)
  : list Instance.t :=
  filter (fun i =>
            mem_id (Instance.recurring_event_id i) eventIds
            && match next_date today (Instance.recurring_event_id i) s with
               | Some d => Instance.instance_date i =? d
               | None => false
               end)
         (Event_Instances s).

(** [instanceMap[event.id] || null] after
    [results.forEach(instance => instanceMap[instance.recurring_event_id] = instance)]:
    the last row of the template wins. *)
Definition from_map (eventId : Z) (results : list Instance.t)
  : option Instance.t :=
  find (fun i => Instance.recurring_event_id i =? eventId) (rev results).

End Select.

(** What [parseInt(text, 10)] returns: NaN, or a double that holds an
    integer. *)
Inductive number := NaN | Num (n : Z).

Module Listing.

Record pagination := mkPagination {
  total : Z;
  limit : number;
  offset : number;
  hasMore : bool
}.

(** An event of the page with its [nextInstance] property. *)
Record item := mkItem {
  event : Event.t;
  nextInstance : option Instance.t
}.

Inductive reply :=
| Page (events : list item) (p : pagination)
| Failed (message : string) (status : Z).

End Listing.

(** [parseInt(url.searchParams.get(name) || fallback, 10)]: the parameter
    is absent or empty ([None]), or [parseInt] has read its text. *)
Definition parse_or (param : option number) (fallback : Z) : number :=
  match param with
  | Some n => n
  | None => Num fallback
  end.

(** [.bind(limit, offset)]: the binding takes a number that is an integer
    of 64 bits; NaN and a double beyond that range make it throw. *)
Definition bound (n : number) : option Z :=
  match n with
  | Num i => if (- 2 ^ 63 <=? i) && (i <? 2 ^ 63) then Some i else None
  | NaN => None
  end.

(** [offset + limit < total]: a sum and a comparison of doubles, false as
    soon as one is NaN.  The sum of the model is the exact one, which is
    the double's when both numbers lie within 2^52 of 0. *)
Definition has_more (offset limit : number) (total : Z) : bool :=
  match offset, limit with
  | Num o, Num l => o + l <? total
  | _, _ => false
  end.

(** The integers whose sums the doubles of JavaScript hold exactly. *)
Definition exact (n : Z) : Prop := - 2 ^ 52 <= n <= 2 ^ 52.

(** [eventsRouter.get('/api/events', ..)].  [limitParam] and [offsetParam]
    are what [parseInt] reads from the query parameters, [None] for a
    parameter that is absent or empty.  [today] is SQLite's
    [DATE('now')]. *)
Definition get_api_events (today : date)
           (limitParam offsetParam : option number) : M Listing.reply :=
  try_catch
    (let limit := parse_or limitParam 100 in
     let offset := parse_or offsetParam 0 in
     events <- match bound limit, bound offset with
               | Some l, Some o =>
                   query (fun s =>
                     Select.page l o
                       (Select.by_start_date_desc (Recurring_Events s)))
               | _, _ => throw "D1_TYPE_ERROR"
               end ;;
     total <- query (fun s => Z.of_nat (List.length (Recurring_Events s))) ;;
     results <- match events with
                | [] => ret []
                | _ => query (Select.upcoming today (map Event.id events))
                end ;;
     ret (Listing.Page
            (map (fun e =>
                    Listing.mkItem e (Select.from_map (Event.id e) results))
                 events)
            (Listing.mkPagination total limit offset
               (has_more offset limit total))))
    (fun error =>
       ret (Listing.Failed ("Error retrieving events: " ++ error) 500)).

(** ** The router *)

Module Router.

(** [request.method] as a key of [this.routes]: one of the five the
    constructor lists; [INHERITED], a name every object inherits from
    [Object.prototype] ([constructor], [toString], [__proto__], ..);
    [OTHER], any other method (HEAD, OPTIONS, ..). *)
Inductive Method := GET | POST | PUT | PATCH | DELETE | INHERITED | OTHER.

Definition listed (m : Method) : bool :=
  match m with
  | GET | POST | PUT | PATCH | DELETE => true
  | INHERITED | OTHER => false
  end.

Definition starts_with_colon (s : string) : bool :=
  match s with
  | String c _ => Ascii.eqb c ":"
  | EmptyString => false
  end.

Fixpoint includes_colon (s : string) : bool :=
  match s with
  | String c s' => Ascii.eqb c ":" || includes_colon s'
  | EmptyString => false
  end.

(** [s.substring(1)] *)
Definition substring1 (s : string) : string :=
  match s with
  | String _ s' => s'
  | EmptyString => EmptyString
  end.

(** [s.split('/')] *)
Definition parts (s : string) : list string := RuleParser.split_on "/" s.

Section Routes.

(** The handlers. *)
Variable H : Type.

(** A JavaScript object with string keys: the properties in insertion
    order, a key occurring once. *)
Definition object (V : Type) : Type := list (string * V).

(** [o[k] = v] *)
Fixpoint assign {V} (k : string) (v : V) (o : object V) : object V :=
  match o with
  | [] => [(k, v)]
  | (k', v') :: o' =>
      if (k' =? k)%string then (k, v) :: o' else (k', v') :: assign k v o'
  end.

(** [o[k]] *)
Fixpoint property {V} (k : string) (o : object V) : option V :=
  match o with
  | [] => None
  | (k', v) :: o' => if (k' =? k)%string then Some v else property k o'
  end.

(** [this.routes]: one object per listed method. *)
Record t := mk {
  GETs : object H;
  POSTs : object H;
  PUTs : object H;
  PATCHes : object H;
  DELETEs : object H
}.

(** [constructor()] *)
Definition empty : t := mk [] [] [] [] [].

(** [this.routes[method]] as [handle] uses it; [None] is [undefined].  An
    inherited name gives a function or object of the language, which has
    no property under a path (a path begins with ['/']) and nothing for
    [for .. in] to enumerate: no route. *)
Definition table (r : t) (m : Method) : option (object H) :=
  match m with
  | GET => Some (GETs r)
  | POST => Some (POSTs r)
  | PUT => Some (PUTs r)
  | PATCH => Some (PATCHes r)
  | DELETE => Some (DELETEs r)
  | INHERITED => Some []
  | OTHER => None
  end.

(** [get(path, handler)], [post], [put], [patch], [delete]. *)
Definition get (path : string) (h : H) (r : t) : t :=
  mk (assign path h (GETs r)) (POSTs r) (PUTs r) (PATCHes r) (DELETEs r).

Definition post (path : string) (h : H) (r : t) : t :=
  mk (GETs r) (assign path h (POSTs r)) (PUTs r) (PATCHes r) (DELETEs r).

Definition put (path : string) (h : H) (r : t) : t :=
  mk (GETs r) (POSTs r) (assign path h (PUTs r)) (PATCHes r) (DELETEs r).

Definition patch (path : string) (h : H) (r : t) : t :=
  mk (GETs r) (POSTs r) (PUTs r) (assign path h (PATCHes r)) (DELETEs r).

Definition delete (path : string) (h : H) (r : t) : t :=
  mk (GETs r) (POSTs r) (PUTs r) (PATCHes r) (assign path h (DELETEs r)).

(** The loop over the parts of a route and of a path of the same length:
    the parameters when every literal part agrees, [None] at the first that
    does not. *)
Fixpoint match_parts (routeParts pathParts : list string)
         (params : object string) : option (object string) :=
  match routeParts, pathParts with
  | rp :: routeParts', pp :: pathParts' =>
      if starts_with_colon rp
      then match_parts routeParts' pathParts' (assign (substring1 rp) pp params)
      else if (rp =? pp)%string
           then match_parts routeParts' pathParts' params
           else None
  | _, _ => Some params
  end.

(** What [handle] does with a request: it calls a handler, after setting
    [request.params] when the route has parameters, or answers 404. *)
Inductive routed :=
| Call (h : H) (params : option (object string))
| NotFound.

(** The [for (const routePath in this.routes[method])] loop. *)
Fixpoint dynamic (routes : object H) (path : string) : routed :=
  match routes with
  | [] => NotFound
  | (routePath, h) :: routes' =>
      if includes_colon routePath then
        let routeParts := parts routePath in
        let pathParts := parts path in
        if negb (List.length routeParts =? List.length pathParts)%nat
        then dynamic routes' path
        else match match_parts routeParts pathParts [] with
             | Some params => Call h (Some params)
             | None => dynamic routes' path
             end
      else dynamic routes' path
  end.

(** [handle(request, env, ctx)] up to the call of the handler; [path] is
    [url.pathname], which begins with ['/']; [None] is the TypeError of
    reading a property of [undefined]. *)
Definition handle (r : t) (method : Method) (path : string) : option routed :=
  match table r method with
  | None => None
  | Some routes =>
      match property path routes with
      | Some h => Some (Call h None)
      | None => Some (dynamic routes path)
      end
  end.

(** The registering method named after a request method; there is none
    for a method that is not listed. *)
Definition register (m : Method) (path : string) (h : H) (r : t) : t :=
  match m with
  | GET => get path h r
  | POST => post path h r
  | PUT => put path h r
  | PATCH => patch path h r
  | DELETE => delete path h r
  | INHERITED | OTHER => r
  end.

End Routes.

(** A route part and the path part at its place: a parameter takes any
    part, a literal takes itself. *)
Definition agree (routePart pathPart : string) : bool :=
  starts_with_colon routePart || (routePart =? pathPart)%string.

(** A route with parameters fits a path: as many parts, each agreeing. *)
Definition fits (routePath path : string) : bool :=
  includes_colon routePath
  && (List.length (parts routePath) =? List.length (parts path))%nat
  && forallb (fun rp => agree (fst rp) (snd rp))
       (combine (parts routePath) (parts path)).

(** The path part at the last route part that is the parameter [name]. *)
Fixpoint part_named (name : string) (routeParts pathParts : list string)
  : option string :=
  match routeParts, pathParts with
  | rp :: routeParts', pp :: pathParts' =>
      match part_named name routeParts' pathParts' with
      | Some v => Some v
      | None =>
          if starts_with_colon rp && (substring1 rp =? name)%string
          then Some pp else None
      end
  | _, _ => None
  end.

Fixpoint no_slash (s : string) : bool :=
  match s with
  | String c s' => negb (Ascii.eqb c "/") && no_slash s'
  | EmptyString => true
  end.

End Router.

(** The handlers of [events.js]. *)
Inductive EventsRoute :=
| CreateEvent | ListEvents | GetEvent | UpdateEvent | DeleteEvent.

(** [eventsRouter], a [Router] with the five registrations of [events.js]
    in their order. *)
Definition eventsRouter : Router.t EventsRoute :=
  Router.delete "/api/events/:id" DeleteEvent
    (Router.put "/api/events/:id" UpdateEvent
       (Router.get "/api/events/:id" GetEvent
          (Router.get "/api/events" ListEvents
             (Router.post "/api/events" CreateEvent
                (Router.empty EventsRoute))))).

(** ** Invariants of the connection *)

(** [I] holds of the contents and of the contents BEGIN saved. *)
Definition db_inv (I : store -> Prop) (d : db) : Prop :=
  I (cur d) /\ forall s0, snapshot d = Some s0 -> I s0.

Definition preserves (I : store -> Prop) {A} (c : M A) : Prop :=
  forall d, db_inv I d -> db_inv I (snd (c d)).

Definition stmt_keeps (I : store -> Prop)
           (stmt : store -> option (store * tally)) : Prop :=
  forall s s' t, I s -> stmt s = Some (s', t) -> I s'.

(** The pair (template, date) identifies an instance row. *)
Definition pairs_unique (s : store) : Prop :=
  NoDup (map Instance.key (Event_Instances s)).

(** ** What a mutation leaves alone *)

(** The columns no [DO UPDATE SET] of the routes assigns, with the
    cancellation mark. *)
Definition identity (i : Instance.t) : Z * Z * date * bool :=
  (Instance.id i, Instance.recurring_event_id i, Instance.instance_date i,
   Instance.is_cancelled i).

(** A row with the identity of [i] is in the instance table. *)
Definition survives (i : Instance.t) (s : store) : Prop :=
  exists i', In i' (Event_Instances s) /\ identity i' = identity i.

(** A row of another template, or one whose date has an exception of the
    template. *)
Definition sheltered (eventId : Z) (s0 : store) (i : Instance.t) : bool :=
  negb (Instance.recurring_event_id i =? eventId)
  || Sql.mem_date (Instance.instance_date i) (Sql.exception_dates eventId s0).

Definition other_templates (eventId : Z) (s : store) : list Event.t :=
  filter (fun e => negb (Event.id e =? eventId)) (Recurring_Events s).

(** What an update of template [eventId] started in [s0] leaves as it was. *)
Definition update_frame (eventId : Z) (s0 s : store) : Prop :=
  Event_Exceptions s = Event_Exceptions s0
  /\ map Event.id (Recurring_Events s) = map Event.id (Recurring_Events s0)
  /\ other_templates eventId s = other_templates eventId s0
  /\ forall i, In i (Event_Instances s0) -> sheltered eventId s0 i = true ->
               survives i s.

(** The table [l'] holds the rows of [l], in their order and with their
    identities, followed by new ones. *)
Definition extends (l l' : list Instance.t) : Prop :=
  exists added, map identity l' = (map identity l ++ added)%list.

Definition other_instances (eventId : Z) (s : store) : list Instance.t :=
  filter (fun i => negb (Instance.recurring_event_id i =? eventId))
         (Event_Instances s).

Definition other_exceptions (eventId : Z) (s : store) : list Exception.t :=
  filter (fun x => negb (Exception.recurring_event_id x =? eventId))
         (Event_Exceptions s).

(** What a delete of template [eventId] started in [s0] leaves as it was. *)
Definition delete_frame (eventId : Z) (s0 s : store) : Prop :=
  other_templates eventId s = other_templates eventId s0
  /\ other_instances eventId s = other_instances eventId s0
  /\ other_exceptions eventId s = other_exceptions eventId s0.

(** What a cancellation started in [s0] leaves as it was: the templates; the
    instance rows, but for the marks it sets; the marks and the exceptions
    that were there. *)
Definition cancel_frame (s0 s : store) : Prop :=
  Recurring_Events s = Recurring_Events s0
  /\ map (Sql.mark true) (Event_Instances s)
     = map (Sql.mark true) (Event_Instances s0)
  /\ (forall i, In i (Event_Instances s0) -> Instance.is_cancelled i = true ->
                In i (Event_Instances s))
  /\ exists added, Event_Exceptions s = (Event_Exceptions s0 ++ added)%list.

(** [recurring_event_id = ? AND instance_date >= ?] *)
Definition from_date (eventId : Z) (d : date) (i : Instance.t) : bool :=
  (Instance.recurring_event_id i =? eventId)
  && (d <=? Instance.instance_date i).

(** ** Order of a result set *)

Definition by_date (i j : Instance.t) : Prop :=
  Instance.instance_date i <= Instance.instance_date j.

Definition by_start_desc (e f : Event.t) : Prop :=
  Event.start_date f <= Event.start_date e.

(** What [nextInstance] is for the template [eventId] in the store [s]:
    a row of the template on the earliest date, today or later, on which
    the template has an instance that is not cancelled; [None] when every
    instance of the template from today on is cancelled. *)
Definition next_of (today : date) (eventId : Z) (s : store)
           (next : option Instance.t) : Prop :=
  match next with
  | Some i =>
      In i (Event_Instances s)
      /\ Instance.recurring_event_id i = eventId
      /\ today <= Instance.instance_date i
      /\ (exists j, In j (Event_Instances s)
                    /\ Instance.key j = Instance.key i
                    /\ Instance.is_cancelled j = false)
      /\ (forall j, In j (Event_Instances s) ->
                    Instance.recurring_event_id j = eventId ->
                    today <= Instance.instance_date j ->
                    Instance.is_cancelled j = false ->
                    Instance.instance_date i <= Instance.instance_date j)
  | None =>
      forall j, In j (Event_Instances s) ->
                Instance.recurring_event_id j = eventId ->
                today <= Instance.instance_date j ->
                Instance.is_cancelled j = true
  end.

(** The instance rows dated before [today]. *)
Definition past (today : date) (s : store) : list Instance.t :=
  filter (fun i => Instance.instance_date i <? today) (Event_Instances s).
(** ** Auxiliary definitions of the proofs *)

(** [i, i+1, .., i+n-1] *)
Fixpoint indices (i : Z) (n : nat) : list Z :=
  match n with
  | O => []
  | S n' => i :: indices (i + 1) n'
  end.

(** The rows stored under a pair [(template, date)]. *)
Definition has_key (k : Z * date) (i : Instance.t) : bool :=
  (Instance.recurring_event_id i =? fst k) && (Instance.instance_date i =? snd k).


(** The command leaves an open transaction open, with the contents BEGIN
    saved. *)
Definition transactional {A} (c : M A) : Prop :=
  forall d, snapshot (snd (c d)) = snapshot d.

(** The command leaves the contents and the transaction as they are: it
    only reads. *)
Definition reads_only {A} (c : M A) : Prop :=
  forall d, cur (snd (c d)) = cur (d) /\ snapshot (snd (c d)) = snapshot d.

(** Run on contents satisfying [P], and whatever the binding refuses, the
    command throws or returns a value [a] on contents satisfying [Q a].
    Nothing is said of the contents a throwing command leaves: the handlers
    roll them back. *)
Definition ensures {A} (P : store -> Prop) (c : M A)
           (Q : A -> store -> Prop) : Prop :=
  forall d, P (cur d) ->
            match fst (c d) with
            | Ok a => Q a (cur (snd (c d)))
            | Throw _ => True
            end.

(** A command that, started outside a transaction, ends outside one, and
    whose value, when it returns, satisfies [P]. *)
Definition answers {A} (P : A -> Prop) (c : M A) : Prop :=
  forall d, snapshot d = None ->
            snapshot (snd (c d)) = None
            /\ match fst (c d) with Ok a => P a | Throw _ => True end.

(** ** What an accepted update or delete leaves *)


(** Every instance row of [eventId] in [s'] whose date has no exception
    bears an identifier handed out after [s0]. *)
Definition renewed (eventId : Z) (s0 s' : store) : Prop :=
  forall i, In i (Event_Instances s') ->
            sheltered eventId s0 i = false ->
            Event_Instances_seq s0 < Instance.id i.




(** Nothing of the template [eventId] is left. *)
Definition template_gone (eventId : Z) (s0 s' : store) : Prop :=
  Recurring_Events s'
  = filter (fun e => negb (Event.id e =? eventId)) (Recurring_Events s0)
  /\ Event_Instances s' = other_instances eventId s0
  /\ Event_Exceptions s' = other_exceptions eventId s0.

(** The instance rows of [s0] with those selected by [p] marked
    cancelled. *)
Definition cancelled_where (p : Instance.t -> bool) (s0 s' : store) : Prop :=
  Recurring_Events s' = Recurring_Events s0
  /\ Event_Instances s'
     = map (fun i => if p i then Sql.mark true i else i)
         (Event_Instances s0).

(** * Properties *)

(** ** Materialization *)

Section MaterializerFacts.

Variable r : Rule.t.
Variable anchor : date.

Lemma indices_length i n : List.length (indices i n) = n.
Proof. revert i; induction n; simpl; intros; [reflexivity | now rewrite IHn]. Qed.

Lemma indices_nth n : forall i j, (j < n)%nat ->
  nth j (indices i n) 0 = i + Z.of_nat j.
Proof.
  induction n; intros i j Hj; [lia |].
  destruct j; simpl.
  - lia.
  - rewrite IHn by lia. lia.
Qed.

Lemma indices_lower n : forall i x, In x (indices i n) -> i <= x.
Proof.
  induction n; simpl; intros i x H; [contradiction |].
  destruct H as [<- | H]; [lia |]. apply IHn in H. lia.
Qed.


(** When every step gives a date and no UNTIL is set, the scan is the
    image of the first [n] indices. *)
Lemma scan_every_step (f : Z -> date) :
  (forall i, candidate r anchor i = Some (f i)) ->
  Rule.until r = None ->
  forall n fuel i, (n <= fuel)%nat ->
    scan r anchor fuel i n = map f (indices i n).
Proof.
  intros Hc Hu. induction n; intros fuel i Hle.
  - destruct fuel; reflexivity.
  - destruct fuel; [lia |]. simpl.
    rewrite Hc. unfold past_until. rewrite Hu.
    f_equal. apply IHn. lia.
Qed.

End MaterializerFacts.

Lemma generated_dates ev r n :
  map Generated.instance_date (generateInstances ev r n)
  = occurrence_dates r (Event.start_date ev) n.
Proof.
  unfold generateInstances. rewrite map_map. simpl. apply map_id.
Qed.


Lemma sorted_image (f : Z -> Z) :
  (forall a b, a < b -> f a < f b) ->
  forall n i, StronglySorted Z.lt (map f (indices i n)).
Proof.
  intros Hmono. induction n; intros i; simpl; constructor.
  - apply IHn.
  - rewrite Forall_forall. intros y Hy.
    rewrite in_map_iff in Hy. destruct Hy as (x & <- & Hx).
    apply indices_lower in Hx. apply Hmono. lia.
Qed.

(** C6.  For every weekly rule with COUNT = n > 0 and a positive INTERVAL (no
    BYDAY, no UNTIL), the instances generated at the handlers' call site carry
    exactly n dates, each 7 * INTERVAL days after the one before, in strictly
    ascending order. *)
Theorem weekly_count_materialization (ev : Event.t) (r : Rule.t) (n : Z) :
  Rule.frequency r = weekly ->
  Rule.days_of_week r = [] ->
  Rule.until r = None ->
  Rule.count r = Some n ->
  0 < n ->
  1 <= Rule.interval r ->
  let dates :=
    map Generated.instance_date (generateInstances ev r (instanceCount r)) in
  Z.of_nat (List.length dates) = n
  /\ (forall i, (S i < List.length dates)%nat ->
        nth (S i) dates 0 - nth i dates 0 = 7 * Rule.interval r)
  /\ StronglySorted Z.lt dates.
Proof.
  intros Hf Hd Hu Hc Hn Hk dates.
  assert (Hcount : instanceCount r = n).
  { unfold instanceCount. rewrite Hc.
    destruct (Z.eqb_spec n 0); [lia | reflexivity]. }
  set (f := fun i => Event.start_date ev + 7 * (i * Rule.interval r)).
  assert (Hdates : dates = map f (indices 0 (Z.to_nat n))).
  { unfold dates. rewrite generated_dates, Hcount.
    unfold occurrence_dates.
    apply scan_every_step.
    - intros i. unfold candidate. now rewrite Hf, Hd.
    - exact Hu.
    - unfold stride. rewrite Hf, Hd. lia. }
  rewrite Hdates. rewrite length_map, indices_length.
  split; [lia |]. split.
  - intros i Hi.
    rewrite !(nth_indep _ 0 (f 0)) by (rewrite length_map, indices_length; lia).
    rewrite !map_nth, !indices_nth by lia.
    unfold f. lia.
  - apply sorted_image. intros a b Hab. unfold f. nia.
Qed.

(** C6, at the rule FREQ=WEEKLY;INTERVAL=2;COUNT=4 from 2025-04-01. *)
Lemma weekly_count_materialization_witness :
  let ev := Event.mk 1 "Test Recurring Event" None 20179 20179 (Some weekly)
              (Some 2) (Some []) "10:00:00" (Some "11:00:00") 1 in
  let r := Rule.mk weekly 2 (Some 4) None [] in
  map Generated.instance_date (generateInstances ev r (instanceCount r))
  = [20179; 20193; 20207; 20221]
  /\ StronglySorted Z.lt
       (map Generated.instance_date (generateInstances ev r (instanceCount r))).
Proof.
  intros ev r. split; [reflexivity |].
  apply (weekly_count_materialization ev r (n := 4));
    try reflexivity; simpl; lia.
Defined.


(** * The connection *)

(** ** Invariants kept across every run *)

Lemma pres_ret (I : store -> Prop) {A} (a : A) : preserves I (ret a).
Proof. intros d H. exact H. Qed.

Lemma pres_throw (I : store -> Prop) {A} (e : string) : preserves I (@throw A e).
Proof. intros d H. exact H. Qed.

Lemma pres_query (I : store -> Prop) {A} (q : store -> A) : preserves I (query q).
Proof. intros d H. exact H. Qed.

Lemma pres_run (I : store -> Prop) (stmt : store -> option (store * tally)) :
  stmt_keeps I stmt -> preserves I (run stmt).
Proof.
  intros Hk d [Hc Hs]. unfold run.
  destruct (fail_at d) as [[| k] |]; simpl; try (split; assumption);
    destruct (stmt (cur d)) as [[s' t] |] eqn:E; simpl; split;
    try assumption; eapply Hk; eassumption.
Qed.

Lemma pres_bind (I : store -> Prop) {A B} (c : M A) (k : A -> M B) :
  preserves I c -> (forall a, preserves I (k a)) -> preserves I (bind c k).
Proof.
  intros Hc Hk d H. unfold bind. specialize (Hc d H).
  destruct (c d) as [[a | e] d1]; simpl in *; [now apply Hk | exact Hc].
Qed.

Lemma pres_try (I : store -> Prop) {A} (c : M A) (h : string -> M A) :
  preserves I c -> (forall e, preserves I (h e)) -> preserves I (try_catch c h).
Proof.
  intros Hc Hh d H. unfold try_catch. specialize (Hc d H).
  destruct (c d) as [[a | e] d1]; simpl in *; [exact Hc | now apply Hh].
Qed.

Lemma pres_for_each (I : store -> Prop) {A} (l : list A) (f : A -> M unit) :
  (forall a, preserves I (f a)) -> preserves I (for_each l f).
Proof.
  intros H. induction l as [| a l IH]; simpl.
  - apply pres_ret.
  - apply pres_bind; [apply H | intros _; exact IH].
Qed.

Lemma pres_BEGIN (I : store -> Prop) : preserves I BEGIN.
Proof.
  intros d [Hc Hs]. unfold BEGIN.
  destruct (fail_at d) as [[| k] |]; simpl; split; try assumption;
    intros s0 [= <-]; exact Hc.
Qed.

Lemma pres_COMMIT (I : store -> Prop) : preserves I COMMIT.
Proof.
  intros d [Hc Hs]. unfold COMMIT.
  destruct (fail_at d) as [[| k] |]; simpl; split; try assumption;
    discriminate.
Qed.

Lemma pres_ROLLBACK (I : store -> Prop) : preserves I ROLLBACK.
Proof.
  intros d [Hc Hs]. unfold ROLLBACK.
  destruct (snapshot d) as [s0 |] eqn:E; simpl; split; try assumption.
  - now apply Hs.
  - discriminate.
  - intros s0 Hs0. apply Hs. congruence.
Qed.

Lemma pres_query_bind (I : store -> Prop) {A B} (q : store -> A)
      (k : A -> M B) :
  (forall s, I s -> preserves I (k (q s))) -> preserves I (bind (query q) k).
Proof.
  intros H d Hd. unfold bind, query. exact (H (cur d) (proj1 Hd) d Hd).
Qed.

Lemma db_inv_connect (I : store -> Prop) (s : store) (fault : option nat) :
  I s -> db_inv I (connect s fault).
Proof. intros H. split; [exact H | discriminate]. Qed.


Lemma unchanged_keeps (I : store -> Prop) : stmt_keeps I unchanged.
Proof. intros s s' t Hs [= <- _]. exact Hs. Qed.

Lemma pres_read (I : store -> Prop) {A} (q : store -> A) : preserves I (read q).
Proof.
  unfold read. apply pres_bind; [apply pres_run, unchanged_keeps |].
  intros _. apply pres_query.
Qed.

Lemma pres_read_bind (I : store -> Prop) {A B} (q : store -> A)
      (k : A -> M B) :
  (forall s, I s -> preserves I (k (q s))) -> preserves I (bind (read q) k).
Proof.
  intros H. unfold read. intros d Hd. unfold bind at 1 2.
  pose proof (pres_run (@unchanged_keeps I) Hd) as H1.
  destruct (run unchanged d) as [[[] | e] d1]; simpl in *; [| exact H1].
  unfold query. exact (H (cur d1) (proj1 H1) d1 H1).
Qed.

(** Walks a handler, leaving to [tac] the statements it runs. *)
Ltac pres_by tac :=
  repeat first
    [ apply pres_ret | apply pres_throw | apply pres_query | apply pres_read
    | apply pres_BEGIN | apply pres_COMMIT | apply pres_ROLLBACK
    | apply pres_run; tac
    | apply pres_query_bind; intros ? ?
    | apply pres_read_bind; intros ? ?
    | apply pres_bind; [| intros ?]
    | apply pres_try; [| intros ?]
    | apply pres_for_each; intros ?
    | match goal with
      | |- preserves _ (if false then _ else _) => cbv iota
      | |- preserves _ (if true then _ else _) => cbv iota
      | |- preserves _ (if ?b then _ else _) => destruct b eqn:?
      | |- preserves _ (match ?x with _ => _ end) => destruct x
      | |- preserves _ (let _ := _ in _) => cbv zeta
      end ].

Ltac pres := pres_by ltac:(solve [auto]).

Ltac open_handlers :=
  unfold post_api_events, create_visible, create_rest, put_api_events,
    update_statements, delete_stale, regenerate, delete_api_events,
    delete_statements.

(** ** Transactions *)

Lemma tx_ret {A} (a : A) : transactional (ret a).
Proof. intros d. reflexivity. Qed.

Lemma tx_throw {A} (e : string) : transactional (@throw A e).
Proof. intros d. reflexivity. Qed.

Lemma tx_query {A} (q : store -> A) : transactional (query q).
Proof. intros d. reflexivity. Qed.

Lemma tx_run (stmt : store -> option (store * tally)) : transactional (run stmt).
Proof.
  intros d. unfold run.
  destruct (fail_at d) as [[| k] |]; simpl; try reflexivity;
    destruct (stmt (cur d)) as [[s' t] |]; reflexivity.
Qed.

Lemma tx_bind {A B} (c : M A) (k : A -> M B) :
  transactional c -> (forall a, transactional (k a)) -> transactional (bind c k).
Proof.
  intros Hc Hk d. unfold bind. specialize (Hc d).
  destruct (c d) as [[a | e] d1]; simpl in *.
  - rewrite (Hk a d1). exact Hc.
  - exact Hc.
Qed.

Lemma tx_for_each {A} (l : list A) (f : A -> M unit) :
  (forall a, transactional (f a)) -> transactional (for_each l f).
Proof.
  intros H. induction l as [| a l IH]; simpl.
  - apply tx_ret.
  - apply tx_bind; [apply H | intros _; exact IH].
Qed.

Lemma tx_read {A} (q : store -> A) : transactional (read q).
Proof. unfold read. apply tx_bind; [apply tx_run | intros _; apply tx_query]. Qed.

Ltac tx :=
  repeat first
    [ apply tx_ret | apply tx_throw | apply tx_query | apply tx_read
    | apply tx_run
    | apply tx_bind; [| intros ?]
    | apply tx_for_each; intros ?
    | match goal with
      | |- transactional (if ?b then _ else _) => destruct b
      | |- transactional (match ?x with _ => _ end) => destruct x
      end ].

Lemma update_statements_tx today eventId row updateScope recurrenceRule :
  transactional (update_statements today eventId row updateScope recurrenceRule).
Proof. open_handlers. tx. Qed.

Lemma delete_statements_tx eventId deleteScope instanceDate :
  transactional (delete_statements eventId deleteScope instanceDate).
Proof. open_handlers. tx. Qed.

(** ** Reads *)

Lemma ro_ret {A} (a : A) : reads_only (ret a).
Proof. intros d. now split. Qed.

Lemma ro_read_bind {A B} (q : store -> A) (k : A -> M B) :
  (forall a, reads_only (k a)) -> reads_only (bind (read q) k).
Proof.
  intros Hk d. unfold read, bind, run, unchanged, query.
  destruct (fail_at d) as [[| n] |]; simpl; try (now split);
    match goal with |- context [k ?a ?d1] => destruct (Hk a d1) as [-> ->] end;
    now split.
Qed.

(** ** What a command leaves when it returns *)

Lemma ensures_ret {A} (P : store -> Prop) (a : A) (Q : A -> store -> Prop) :
  (forall s, P s -> Q a s) -> ensures P (ret a) Q.
Proof. intros H d Hd. simpl. now apply H. Qed.

Lemma ensures_throw {A} (P : store -> Prop) (e : string)
      (Q : A -> store -> Prop) : ensures P (throw e) Q.
Proof. intros d Hd. exact Logic.I. Qed.

Lemma ensures_query {A} (P : store -> Prop) (q : store -> A)
      (Q : A -> store -> Prop) :
  (forall s, P s -> Q (q s) s) -> ensures P (query q) Q.
Proof. intros H d Hd. simpl. now apply H. Qed.

Lemma ensures_run (P : store -> Prop) (stmt : store -> option (store * tally))
      (Q : unit -> store -> Prop) :
  (forall s s' t, P s -> stmt s = Some (s', t) -> Q tt s') ->
  ensures P (run stmt) Q.
Proof.
  intros H d Hd. unfold run.
  destruct (fail_at d) as [[| k] |]; simpl; trivial;
    destruct (stmt (cur d)) as [[s' t] |] eqn:E; simpl; trivial;
    eapply H; eassumption.
Qed.

Lemma ensures_bind {A B} (P : store -> Prop) (c : M A) (k : A -> M B)
      (Q1 : A -> store -> Prop) (Q : B -> store -> Prop) :
  ensures P c Q1 -> (forall a, ensures (Q1 a) (k a) Q) ->
  ensures P (bind c k) Q.
Proof.
  intros Hc Hk d Hd. unfold bind. specialize (Hc d Hd).
  destruct (c d) as [[a | e] d1]; simpl in *; [| exact Logic.I].
  exact (Hk a d1 Hc).
Qed.

Lemma ensures_read {A} (P : store -> Prop) (q : store -> A)
      (Q : A -> store -> Prop) :
  (forall s, P s -> Q (q s) s) -> ensures P (read q) Q.
Proof.
  intros H. unfold read. apply ensures_bind with (Q1 := fun _ => P).
  - apply ensures_run. intros s s' t Hs [= <- _]. exact Hs.
  - intros _. now apply ensures_query.
Qed.

Lemma ensures_weaken {A} (P P' : store -> Prop) (c : M A)
      (Q Q' : A -> store -> Prop) :
  ensures P' c Q' -> (forall s, P s -> P' s) ->
  (forall a s, Q' a s -> Q a s) -> ensures P c Q.
Proof.
  intros Hc HP HQ d Hd. specialize (Hc d (HP _ Hd)).
  destruct (fst (c d)); [now apply HQ | exact Logic.I].
Qed.


(** The loops: [J done] holds once the elements [done] are through. *)
Lemma ensures_for_each {A} (J : list A -> store -> Prop) (f : A -> M unit)
      (l : list A) :
  (forall done x, In x l ->
      ensures (J done) (f x) (fun _ => J (done ++ [x])%list)) ->
  forall done, ensures (J done) (for_each l f) (fun _ => J (done ++ l)%list).
Proof.
  induction l as [| x l IH]; intros H done; simpl.
  - apply ensures_ret. intros s Hs. now rewrite app_nil_r.
  - apply ensures_bind with (Q1 := fun _ => J (done ++ [x])%list).
    + apply H. now left.
    + intros _. eapply ensures_weaken.
      * apply (IH (fun done x Hx => H done x (or_intror Hx)) (done ++ [x])%list).
      * trivial.
      * intros ? s Hs. simpl in Hs. now rewrite <- app_assoc in Hs.
Qed.

(** ** The transaction block of the update and delete handlers *)

(** The block leaves the contents it found, or those its statements
    produce when all of them and COMMIT are accepted. *)
Lemma block_cases {A} (body : M unit) (rest : M A) (Applied : store -> Prop)
      (s : store) (f : option nat) (w : tally) (P : store -> Prop) :
  transactional body ->
  ensures (eq s) body (fun _ => Applied) ->
  reads_only rest ->
  P s -> (forall s', Applied s' -> P s') ->
  P (cur (snd (try_catch (BEGIN ;; body ;; COMMIT ;; rest)
                 (fun error => ROLLBACK ;; throw error) (mkDb s None f w)))).
Proof.
  intros Htx Hens Hro Hs Ha.
  unfold try_catch, bind at 1, BEGIN. simpl.
  destruct f as [[| n] |]; simpl; [exact Hs | |];
    unfold bind at 1;
    match goal with
    | |- context [body ?d1] =>
        pose proof (Htx d1) as Hsnap; pose proof (Hens d1 eq_refl) as Hq;
          destruct (body d1) as [[[] | e] d2]; simpl in *
    end;
    try (unfold ROLLBACK, bind, throw; rewrite Hsnap; simpl; exact Hs);
    unfold bind at 1, COMMIT;
    destruct (fail_at d2) as [[| m] |]; simpl;
    try (unfold ROLLBACK, bind, throw; simpl; rewrite Hsnap; simpl; exact Hs);
    match goal with
    | |- context [rest ?d3] =>
        destruct (Hro d3) as [Hc Hn]; destruct (rest d3) as [[a | e] d4];
          simpl in *
    end;
    try (rewrite Hc; apply Ha; exact Hq);
    unfold ROLLBACK, bind, throw; rewrite Hn; simpl; rewrite Hc; apply Ha;
    exact Hq.
Qed.

(** ** Every request is answered, outside any transaction *)

Lemma answers_ret {A} (P : A -> Prop) (a : A) : P a -> answers P (ret a).
Proof. intros H d Hd. now split. Qed.

Lemma answers_throw {A} (P : A -> Prop) (e : string) : answers P (throw e).
Proof. intros d Hd. now split. Qed.

Lemma answers_bind {A B} (P : B -> Prop) (c : M A) (k : A -> M B) :
  answers (fun _ => True) c -> (forall a, answers P (k a)) ->
  answers P (bind c k).
Proof.
  intros Hc Hk d Hd. unfold bind. destruct (Hc d Hd) as (Hs & _).
  destruct (c d) as [[a | e] d1]; simpl in *; [now apply Hk | now split].
Qed.

Lemma answers_tx {A} (c : M A) : transactional c -> answers (fun _ => True) c.
Proof.
  intros Hc d Hd. rewrite (Hc d). split; [exact Hd |]. now destruct (fst (c d)).
Qed.

Lemma block_result {A} (Q : A -> Prop) (body : M unit) (rest : M A)
      (d : db) (P : outcome A * db -> Prop) :
  transactional body -> answers Q rest -> snapshot d = None ->
  (forall e d', snapshot d' = None -> P (Throw e, d')) ->
  (forall a d', snapshot d' = None -> Q a -> P (Ok a, d')) ->
  P (try_catch (BEGIN ;; body ;; COMMIT ;; rest)
       (fun error => ROLLBACK ;; throw error) d).
Proof.
  intros Htx Hrest Hd Ht Ho. destruct d as [s snap f w]. simpl in Hd.
  subst snap.
  unfold try_catch, bind at 1, BEGIN. simpl.
  destruct f as [[| n] |]; simpl; [now apply Ht | |];
    unfold bind at 1;
    match goal with
    | |- context [body ?d1] =>
        pose proof (Htx d1) as Hsnap;
          destruct (body d1) as [[[] | e] d2]; simpl in *
    end;
    try (unfold ROLLBACK, bind, throw; rewrite Hsnap; simpl; now apply Ht);
    unfold bind at 1, COMMIT;
    destruct (fail_at d2) as [[| m] |]; simpl;
    try (unfold ROLLBACK, bind, throw; simpl; rewrite Hsnap; simpl;
         now apply Ht);
    match goal with
    | |- context [rest ?d3] =>
        destruct (Hrest d3 eq_refl) as [Hs Hp];
          destruct (rest d3) as [[a | e] d4]; simpl in *
    end;
    try (now apply Ho);
    unfold ROLLBACK, bind, throw; rewrite Hs; simpl; destruct d4; simpl in *;
    now apply Ht.
Qed.

Lemma answers_block {A} (P : A -> Prop) (body : M unit) (rest : M A) :
  transactional body -> answers P rest ->
  answers P (try_catch (BEGIN ;; body ;; COMMIT ;; rest)
               (fun error => ROLLBACK ;; throw error)).
Proof.
  intros Htx Hrest d Hd.
  apply (@block_result _ P body rest d
           (fun r => snapshot (snd r) = None
                     /\ match fst r with Ok a => P a | Throw _ => True end)
           Htx Hrest Hd); simpl; intros; now split.
Qed.

Lemma answered {A} (P : A -> Prop) (c : M A) (h : string -> A) (d : db) :
  answers P c -> (forall e, P (h e)) -> snapshot d = None ->
  exists a, fst (try_catch c (fun e => ret (h e)) d) = Ok a
            /\ P a
            /\ snapshot (snd (try_catch c (fun e => ret (h e)) d)) = None.
Proof.
  intros Hc Hh Hd. unfold try_catch. destruct (Hc d Hd) as (Hs & Hp).
  destruct (c d) as [[a | e] d1]; simpl in *.
  - now exists a.
  - now exists (h e).
Qed.

(** ** Properties the statements keep, for the commands that return *)

Lemma keeps_ret (I : store -> Prop) {A} (a : A) :
  ensures I (ret a) (fun _ => I).
Proof. apply ensures_ret. trivial. Qed.

Lemma keeps_query (I : store -> Prop) {A} (q : store -> A) :
  ensures I (query q) (fun _ => I).
Proof. apply ensures_query. trivial. Qed.

Lemma keeps_read (I : store -> Prop) {A} (q : store -> A) :
  ensures I (read q) (fun _ => I).
Proof. apply ensures_read. trivial. Qed.

Lemma keeps_run (I : store -> Prop) (stmt : store -> option (store * tally)) :
  stmt_keeps I stmt -> ensures I (run stmt) (fun _ => I).
Proof. intros H. apply ensures_run. intros s s' t Hs E. exact (H s s' t Hs E). Qed.

Lemma keeps_bind (I : store -> Prop) {A B} (c : M A) (k : A -> M B) :
  ensures I c (fun _ => I) -> (forall a, ensures I (k a) (fun _ => I)) ->
  ensures I (bind c k) (fun _ => I).
Proof. intros Hc Hk. eapply ensures_bind; [exact Hc | exact Hk]. Qed.

Lemma keeps_for_each (I : store -> Prop) {A} (l : list A) (f : A -> M unit) :
  (forall a, ensures I (f a) (fun _ => I)) ->
  ensures I (for_each l f) (fun _ => I).
Proof.
  intros H. induction l as [| a l IH]; simpl.
  - apply keeps_ret.
  - apply keeps_bind; [apply H | intros _; exact IH].
Qed.

(** Walks a command, leaving to [tac] the statements it runs. *)
Ltac keeps_by tac :=
  repeat first
    [ apply keeps_ret | apply ensures_throw | apply keeps_query
    | apply keeps_read
    | apply keeps_run; tac
    | apply keeps_bind; [| intros ?]
    | apply keeps_for_each; intros ?
    | match goal with
      | |- ensures _ (if false then _ else _) _ => cbv iota
      | |- ensures _ (if true then _ else _) _ => cbv iota
      | |- ensures _ (if ?b then _ else _) _ => destruct b eqn:?
      | |- ensures _ (match ?x with _ => _ end) _ => destruct x
      | |- ensures _ (let _ := _ in _) _ => cbv zeta
      end ].
(** ** Rejections *)

Section HandlerFacts.

Variable parseRRule : string -> string + Rule.t.
Variable today : date.

(** C9.  An update or a delete naming a template that does not exist, and an
    update carrying a rule text that [parseRRule] rejects, is answered with
    an error (404 or 400) and leaves the connection exactly as it was: no
    statement has been run, whatever the storage layer would have done. *)
Theorem rejected_before_any_write :
  (forall s fault eventId json,
      Sql.select_event eventId s = None ->
      exists resp,
        put_api_events parseRRule today eventId json (connect s fault)
        = (Ok resp, connect s fault)
        /\ (status resp = 404 \/ status resp = 400)
        /\ (forall data, json = Some data ->
              validateRequiredFields data = None ->
              resp = errorResponse "Event not found" 404))
  /\ (forall s fault eventId scope instanceDate,
        Sql.select_event eventId s = None ->
        delete_api_events eventId scope instanceDate (connect s fault)
        = (Ok (errorResponse "Event not found" 404), connect s fault))
  /\ (forall s fault eventId data text message,
        Request.recurrenceRule data = Some text ->
        text <> "" ->
        parseRRule text = inl message ->
        exists resp,
          put_api_events parseRRule today eventId (Some data) (connect s fault)
          = (Ok resp, connect s fault)
          /\ (status resp = 404 \/ status resp = 400)
          /\ (validateRequiredFields data = None ->
              Sql.select_event eventId s <> None ->
              resp = errorResponse ("Invalid recurrence rule: " ++ message) 400)).
Proof.
  split; [| split].
  - intros s fault eventId json Hnone.
    unfold put_api_events, try_catch, bind, query, ret, connect.
    destruct json as [data |]; simpl.
    + destruct (validateRequiredFields data) as [m |] eqn:Hv; simpl.
      * eexists; split; [reflexivity |]. split; [now right |].
        intros d [= <-]. congruence.
      * rewrite Hnone. eexists; split; [reflexivity |]. split; [now left |].
        reflexivity.
    + eexists; split; [reflexivity |]. split; [now right |].
      intros d [=].
  - intros s fault eventId scope instanceDate Hnone.
    unfold delete_api_events, try_catch, bind, query, ret, connect. simpl.
    now rewrite Hnone.
  - intros s fault eventId data text message Hrule Htext Hparse.
    assert (Hp : parse_recurrence parseRRule data = inl message).
    { unfold parse_recurrence, or_else. rewrite Hrule. simpl.
      destruct (String.eqb_spec text ""); [contradiction |]. simpl.
      now rewrite Hparse. }
    unfold put_api_events, try_catch, bind, query, ret, connect. simpl.
    destruct (validateRequiredFields data) as [m |] eqn:Hv; simpl.
    + eexists; split; [reflexivity |]. split; [now right |]. discriminate.
    + destruct (Sql.select_event eventId s) as [e |] eqn:He.
      * rewrite Hp. eexists; split; [reflexivity |]. split; [now right |].
        reflexivity.
      * eexists; split; [reflexivity |]. split; [now left |].
        intros _ H. now contradiction H.
Qed.

End HandlerFacts.

(** C9, at the template id 999, which the sample store does not hold, and
    at the rule text INVALID_RULE. *)
Lemma rejected_before_any_write_witness :
  (exists resp,
      put_api_events RuleParser.parseRRule Sample.day0 999
        (Some (Sample.request "FREQ=WEEKLY;COUNT=4" None))
        (connect Sample.created None)
      = (Ok resp, connect Sample.created None)
      /\ resp = errorResponse "Event not found" 404)
  /\ delete_api_events 999 (Some "all") None (connect Sample.created None)
     = (Ok (errorResponse "Event not found" 404), connect Sample.created None)
  /\ (exists resp,
         put_api_events RuleParser.parseRRule Sample.day0 1
           (Some (Sample.request "INVALID_RULE" None))
           (connect Sample.created None)
         = (Ok resp, connect Sample.created None)
         /\ resp = errorResponse "Invalid recurrence rule: FREQ is required" 400).
Proof.
  destruct (rejected_before_any_write RuleParser.parseRRule Sample.day0)
    as (Hput & Hdel & Hrule).
  split; [| split].
  - destruct (Hput Sample.created None 999
                (Some (Sample.request "FREQ=WEEKLY;COUNT=4" None)) eq_refl)
      as (resp & Hrun & _ & Hresp).
    exists resp. split; [exact Hrun |]. now apply (Hresp _ eq_refl).
  - now apply Hdel.
  - destruct (Hrule Sample.created None 1 (Sample.request "INVALID_RULE" None)
                "INVALID_RULE" "FREQ is required" eq_refl
                ltac:(discriminate) eq_refl)
      as (resp & Hrun & _ & Hresp).
    exists resp. split; [exact Hrun |]. apply Hresp; [reflexivity |].
    discriminate.
Defined.


(** ** The binding that refuses BEGIN *)

Section Refusal.

Variable parseRRule : string -> string + Rule.t.
Variable today : date.

Lemma put_refused (s : store) (eventId : Z) (data : Request.t) (e0 : Event.t)
      (rule : option Rule.t) (title : string) (st et : datetime)
      (venueId : Z) :
  validateRequiredFields data = None ->
  Sql.select_event eventId s = Some e0 ->
  parse_recurrence parseRRule data = inr rule ->
  Request.title data = Some title ->
  Request.startTime data = Some st ->
  Request.endTime data = Some et ->
  Request.venueId data = Some venueId ->
  put_api_events parseRRule today eventId (Some data) (connect s begin_refused)
  = (Ok (errorResponse
           ("Error updating recurring event: " ++ "storage error") 500),
     mkDb s None None no_change).
Proof.
  intros Hv He Hp Ht Hs He' Hvn.
  unfold put_api_events, try_catch, bind at 1, query, connect, begin_refused.
  rewrite Hv. simpl. rewrite He, Hp, Ht, Hs, He', Hvn. reflexivity.
Qed.

Lemma delete_refused (s : store) (eventId : Z) (e0 : Event.t)
      (scope : option string) (instanceDate : option date) :
  Sql.select_event eventId s = Some e0 ->
  delete_api_events eventId scope instanceDate (connect s begin_refused)
  = (Ok (errorResponse
           ("Error deleting recurring event: " ++ "storage error") 500),
     mkDb s None None no_change).
Proof.
  intros He.
  unfold delete_api_events, try_catch, bind at 1, query, connect,
    begin_refused.
  simpl. rewrite He. reflexivity.
Qed.

End Refusal.
(** ** What an update leaves alone *)

Lemma update_frame_refl (eventId : Z) (s : store) : update_frame eventId s s.
Proof.
  repeat split. intros i Hi _. exists i. split; [exact Hi | reflexivity].
Qed.

Lemma update_event_frame eventId s0 data rule title st et venueId :
  stmt_keeps (update_frame eventId s0)
    (Sql.update_event eventId (template_row data rule title st et venueId)).
Proof.
  intros s s' t (Hx & Hids & Hoth & Hrows) Hstmt.
  unfold Sql.update_event in Hstmt.
  destruct (existsb _ (Recurring_Events s)); [discriminate |].
  injection Hstmt as <- _.
  unfold update_frame, other_templates in *. simpl.
  repeat split; try assumption.
  - rewrite <- Hids, map_map. apply map_ext. intros e.
    now destruct (Event.id e =? eventId).
  - rewrite <- Hoth. clear.
    induction (Recurring_Events s) as [| e l IH]; simpl; [reflexivity |].
    destruct (Event.id e =? eventId) eqn:E; simpl.
    + rewrite E. simpl. exact IH.
    + rewrite E. simpl. now rewrite IH.
Qed.

Lemma delete_instances_frame eventId s0 (p : Instance.t -> bool) :
  (forall i, p i = true ->
     Instance.recurring_event_id i = eventId
     /\ Sql.mem_date (Instance.instance_date i)
          (Sql.exception_dates eventId s0) = false) ->
  stmt_keeps (update_frame eventId s0) (Sql.delete_instances p).
Proof.
  intros Hp s s' t (Hx & Hids & Hoth & Hrows) [= <- _].
  unfold update_frame, other_templates in *. simpl.
  repeat split; try assumption.
  intros i Hi Hsh. destruct (Hrows i Hi Hsh) as (i' & Hin & Hid).
  exists i'. split; [| exact Hid]. apply filter_In. split; [exact Hin |].
  destruct (p i') eqn:E; [| reflexivity]. exfalso.
  destruct (Hp i' E) as (Hr & Hm).
  unfold identity in Hid. injection Hid as _ Hr' Hd' _.
  unfold sheltered in Hsh. rewrite <- Hr', <- Hd', Hr, Hm, Z.eqb_refl in Hsh.
  discriminate.
Qed.

Lemma upsert_instance_frame eventId s0 g :
  stmt_keeps (update_frame eventId s0) (Sql.upsert_instance g).
Proof.
  intros s s' t (Hx & Hids & Hoth & Hrows). unfold Sql.upsert_instance.
  destruct (existsb (Sql.same_key g) (Event_Instances s));
    intros [= <- _]; unfold update_frame, other_templates in *; simpl;
    repeat split; try assumption;
    intros i Hi Hsh; destruct (Hrows i Hi Hsh) as (i' & Hin & Hid).
  - exists (if Sql.same_key g i' then Sql.overwrite g i' else i'). split.
    + apply in_map_iff. exists i'. split; [reflexivity | exact Hin].
    + rewrite <- Hid. now destruct (Sql.same_key g i').
  - exists i'. split; [| exact Hid]. apply in_or_app. now left.
Qed.

Lemma put_keeps_frame parseRRule today eventId s0 json :
  preserves (update_frame eventId s0)
    (put_api_events parseRRule today eventId json).
Proof.
  assert (Hex : forall s, update_frame eventId s0 s ->
                  Sql.exception_dates eventId s = Sql.exception_dates eventId s0).
  { intros s (Hx & _). unfold Sql.exception_dates. now rewrite Hx. }
  open_handlers.
  pres_by ltac:(first [ apply update_event_frame | apply upsert_instance_frame
                      | apply delete_instances_frame ]).
  all: intros i Hi; rewrite (Hex _ ltac:(eassumption)) in Hi;
    repeat (apply andb_prop in Hi; destruct Hi as [Hi ?]);
    split; [now apply Z.eqb_eq | now apply negb_true_iff].
Qed.

(** X2.  Whatever the request, the scope and the statement that fails, an
    update of one template leaves the exception table as it was, removes
    and adds no template, leaves the rows of the other templates as they
    were, and keeps, with its identifier and cancellation mark, every
    instance row that belongs to another template or whose date has an
    exception of the updated one. *)
Theorem update_touches_one_template (parseRRule : string -> string + Rule.t)
        (today : date) (s : store) (fault : option nat) (eventId : Z)
        (json : option Request.t) :
  update_frame eventId s
    (cur (snd (put_api_events parseRRule today eventId json
                 (connect s fault)))).
Proof.
  exact (proj1 (put_keeps_frame parseRRule today json
                  (db_inv_connect (update_frame eventId s) s fault
                     (update_frame_refl eventId s)))).
Qed.

(** ** Updates that delete nothing *)

Lemma extends_refl (l : list Instance.t) : extends l l.
Proof. exists []. now rewrite app_nil_r. Qed.

Lemma update_event_extends l eventId row :
  stmt_keeps (fun s => extends l (Event_Instances s))
    (Sql.update_event eventId row).
Proof.
  intros s s' t H Hstmt. unfold Sql.update_event in Hstmt.
  destruct (existsb _ (Recurring_Events s)); [discriminate |].
  injection Hstmt as <- _. exact H.
Qed.

Lemma upsert_instance_extends l g :
  stmt_keeps (fun s => extends l (Event_Instances s)) (Sql.upsert_instance g).
Proof.
  intros s s' t (added & H). unfold Sql.upsert_instance.
  destruct (existsb (Sql.same_key g) (Event_Instances s)); intros [= <- _];
    simpl.
  - exists added. rewrite <- H, map_map. apply map_ext.
    intros i. now destruct (Sql.same_key g i).
  - exists (added ++ [identity (Sql.new_instance g (Event_Instances_seq s + 1))])%list.
    now rewrite map_app, H, app_assoc.
Qed.

(** X3.  An update whose scope is neither [all] nor [thisAndFuture] (scope
    [this], or any other text) removes no instance row and changes the
    identifier, template, date and cancellation mark of none, whatever
    statement fails: the instance table afterwards is the one before,
    row by row, followed by the rows the update added. *)
Theorem narrow_update_removes_nothing
        (parseRRule : string -> string + Rule.t) (today : date) (s : store)
        (fault : option nat) (eventId : Z) (data : Request.t) :
  (or_else (Request.updateScope data) "all" =? "all")%string = false ->
  (or_else (Request.updateScope data) "all" =? "thisAndFuture")%string = false ->
  extends (Event_Instances s)
    (Event_Instances
       (cur (snd (put_api_events parseRRule today eventId (Some data)
                    (connect s fault))))).
Proof.
  intros Hall Hfuture.
  assert (H : preserves (fun s' => extends (Event_Instances s) (Event_Instances s'))
                (put_api_events parseRRule today eventId (Some data))).
  { open_handlers. cbv zeta. rewrite Hall, Hfuture.
    pres_by ltac:(first [ apply update_event_extends
                        | apply upsert_instance_extends ]). }
  exact (proj1 (H _ (db_inv_connect _ s fault (extends_refl _)))).
Qed.

(** X3, at an update of the sample template with scope [this] whose fourth
    statement fails. *)
Lemma narrow_update_removes_nothing_witness :
  extends (Event_Instances Sample.created)
    (Event_Instances
       (cur (snd (put_api_events RuleParser.parseRRule Sample.day0 1
                    (Some (Sample.request "FREQ=WEEKLY;COUNT=6" (Some "this")))
                    (connect Sample.created (Some 4%nat)))))).
Proof.
  apply (@narrow_update_removes_nothing RuleParser.parseRRule Sample.day0
           Sample.created (Some 4%nat) 1
           (Sample.request "FREQ=WEEKLY;COUNT=6" (Some "this")));
    reflexivity.
Defined.

(** ** What a delete leaves alone *)

Lemma filter_out_filter {A} (keep drop : A -> bool) (l : list A) :
  (forall a, drop a = true -> keep a = false) ->
  filter keep (filter (fun a => negb (drop a)) l) = filter keep l.
Proof.
  intros H. induction l as [| a l IH]; simpl; [reflexivity |].
  destruct (drop a) eqn:D; simpl.
  - now rewrite (H a D).
  - now rewrite IH.
Qed.

Lemma filter_map_outside {A} (keep touch : A -> bool) (f : A -> A) (l : list A) :
  (forall a, touch a = true -> keep a = false /\ keep (f a) = false) ->
  filter keep (map (fun a => if touch a then f a else a) l) = filter keep l.
Proof.
  intros H. induction l as [| a l IH]; simpl; [reflexivity |].
  destruct (touch a) eqn:T.
  - destruct (H a T) as (-> & ->). exact IH.
  - now rewrite IH.
Qed.

Lemma delete_keeps_frame eventId s0 scope instanceDate :
  preserves (delete_frame eventId s0)
    (delete_api_events eventId scope instanceDate).
Proof.
  assert (Hneg : forall x, (x =? eventId) = true -> negb (x =? eventId) = false)
    by (intros x ->; reflexivity).
  open_handlers.
  pres_by ltac:(idtac).
  all: intros ? ? ? (Ht & Hi & Hx);
    unfold delete_frame, other_templates, other_instances, other_exceptions in *.
  - intros [= <- _]. simpl. repeat split; try assumption.
    rewrite <- Hi. apply filter_out_filter. intros ?; apply Hneg.
  - intros [= <- _]. simpl. repeat split; try assumption.
    rewrite <- Hx. apply filter_out_filter. intros ?; apply Hneg.
  - intros [= <- _]. simpl. repeat split.
    + rewrite <- Ht. apply filter_out_filter. intros ?; apply Hneg.
    + rewrite <- Hi. apply filter_out_filter. intros ?; apply Hneg.
    + rewrite <- Hx. apply filter_out_filter. intros ?; apply Hneg.
  - intros [= <- _]. simpl. repeat split; try assumption.
    rewrite <- Hi. apply filter_map_outside.
    intros ? Ha. apply andb_prop in Ha. destruct Ha as (Ha & _).
    simpl. now rewrite Ha.
  - unfold Sql.insert_or_ignore_exception, Sql.touched.
    destruct (Sql.has_exception _ _ _); intros [= <- _]; simpl;
      repeat split; try assumption.
    rewrite <- Hx, filter_app. simpl. rewrite Z.eqb_refl. simpl.
    now rewrite app_nil_r.
  - intros [= <- _]. simpl. repeat split; try assumption.
    rewrite <- Hi. apply filter_map_outside.
    intros ? Ha. apply andb_prop in Ha. destruct Ha as (Ha & _).
    simpl. now rewrite Ha.
  - unfold Sql.insert_or_ignore_exception, Sql.touched.
    destruct (Sql.has_exception _ _ _); intros [= <- _]; simpl;
      repeat split; try assumption.
    rewrite <- Hx, filter_app. simpl. rewrite Z.eqb_refl. simpl.
    now rewrite app_nil_r.
Qed.

(** X4.  Whatever the scope, the date and the statement that fails, a delete
    of one template leaves the rows of every other template as they were, in
    the three tables. *)
Theorem delete_touches_one_template (s : store) (fault : option nat)
        (eventId : Z) (scope : option string) (instanceDate : option date) :
  delete_frame eventId s
    (cur (snd (delete_api_events eventId scope instanceDate
                 (connect s fault)))).
Proof.
  exact (proj1 (delete_keeps_frame scope instanceDate
                  (db_inv_connect (delete_frame eventId s) s fault
                     (conj eq_refl (conj eq_refl eq_refl))))).
Qed.

(** ** Cancellations never remove *)

Lemma mark_cancelled (i : Instance.t) :
  Instance.is_cancelled i = true -> Sql.mark true i = i.
Proof. destruct i; simpl; intros ->; reflexivity. Qed.

Lemma cancel_frame_refl (s : store) : cancel_frame s s.
Proof.
  repeat split; try (intros; assumption). exists []. now rewrite app_nil_r.
Qed.

Lemma cancel_instances_cancel_frame s0 p :
  stmt_keeps (cancel_frame s0) (Sql.cancel_instances p).
Proof.
  intros s s' t (Ht & Hm & Hc & Hx) [= <- _]. unfold cancel_frame. simpl.
  repeat split; try assumption.
  - rewrite <- Hm, map_map. apply map_ext. intros i.
    destruct (p i); [now destruct i | reflexivity].
  - intros i Hi Hci. apply in_map_iff. exists i.
    split; [| now apply Hc].
    destruct (p i); [now apply mark_cancelled | reflexivity].
Qed.

Lemma insert_exception_cancel_frame s0 eventId d :
  stmt_keeps (cancel_frame s0) (Sql.insert_or_ignore_exception eventId d).
Proof.
  intros s s' t (Ht & Hm & Hc & added & Hx).
  unfold Sql.insert_or_ignore_exception, Sql.touched.
  destruct (Sql.has_exception eventId d s); intros [= <- _];
    unfold cancel_frame; simpl; repeat split; try assumption.
  - now exists added.
  - eexists. rewrite Hx, <- app_assoc. reflexivity.
Qed.

(** X5.  A delete whose scope is not [all] removes nothing, whatever the
    date and the statement that fails: the template table is as it was; the
    instance table holds the same rows in the same order, differing at most
    in their cancellation marks; a row that was cancelled is unchanged; the
    exceptions recorded before are all there, in their order, followed by
    the new ones. *)
Theorem cancellation_removes_nothing (s : store) (fault : option nat)
        (eventId : Z) (scope : option string) (instanceDate : option date) :
  (or_else scope "all" =? "all")%string = false ->
  cancel_frame s
    (cur (snd (delete_api_events eventId scope instanceDate
                 (connect s fault)))).
Proof.
  intros Hscope.
  assert (H : preserves (cancel_frame s)
                (delete_api_events eventId scope instanceDate)).
  { open_handlers. cbv zeta. rewrite Hscope.
    pres_by ltac:(first [ apply cancel_instances_cancel_frame
                        | apply insert_exception_cancel_frame ]). }
  exact (proj1 (H _ (db_inv_connect _ s fault (cancel_frame_refl s)))).
Qed.

(** X5, at the sample template cancelled from its second date on, the
    third statement failing. *)
Lemma cancellation_removes_nothing_witness :
  cancel_frame Sample.created
    (cur (snd (delete_api_events 1 (Some "thisAndFuture")
                 (Some (Sample.day0 + 7))
                 (connect Sample.created (Some 3%nat))))).
Proof.
  apply (@cancellation_removes_nothing Sample.created (Some 3%nat) 1
           (Some "thisAndFuture") (Some (Sample.day0 + 7))).
  reflexivity.
Defined.

(** * The past under a [thisAndFuture] update *)

Lemma upsert_keeps_past today l g :
  (Generated.instance_date g <? today) = false ->
  stmt_keeps (fun s => past today s = l) (Sql.upsert_instance g).
Proof.
  intros Hg s s' t Hs. unfold Sql.upsert_instance.
  destruct (existsb (Sql.same_key g) (Event_Instances s)); intros [= <- _];
    unfold past in *; simpl.
  - rewrite <- Hs. apply filter_map_outside.
    intros i Hi. unfold Sql.same_key in Hi. apply andb_prop in Hi.
    destruct Hi as (_ & Hd). apply Z.eqb_eq in Hd. simpl.
    rewrite Hd. now split.
  - rewrite filter_app. simpl. rewrite Hg. now rewrite app_nil_r.
Qed.

Lemma delete_keeps_past today l (p : Instance.t -> bool) :
  (forall i, p i = true -> (Instance.instance_date i <? today) = false) ->
  stmt_keeps (fun s => past today s = l) (Sql.delete_instances p).
Proof.
  intros Hp s s' t Hs [= <- _]. unfold past in *. simpl.
  rewrite <- Hs. now apply filter_out_filter.
Qed.

Lemma update_event_keeps_past today l eventId row :
  stmt_keeps (fun s => past today s = l) (Sql.update_event eventId row).
Proof.
  intros s s' t Hs Hstmt. unfold Sql.update_event in Hstmt.
  destruct (existsb _ (Recurring_Events s)); [discriminate |].
  injection Hstmt as <- _. exact Hs.
Qed.

Lemma put_keeps_past parseRRule today s eventId data :
  or_else (Request.updateScope data) "all" = "thisAndFuture" ->
  preserves (fun s' => past today s' = past today s)
    (put_api_events parseRRule today eventId (Some data)).
Proof.
  intros Hscope. open_handlers. cbv zeta. rewrite Hscope.
  change ("thisAndFuture" =? "all")%string with false.
  change ("thisAndFuture" =? "thisAndFuture")%string with true.
  pres_by ltac:(first
    [ apply update_event_keeps_past
    | apply upsert_keeps_past; assumption
    | apply delete_keeps_past;
      let i := fresh "i" in
      let Hi := fresh "Hi" in
      intros i Hi; apply andb_prop in Hi; destruct Hi as (Hi & _);
      apply andb_prop in Hi; destruct Hi as (_ & Hi);
      apply Z.leb_le in Hi; apply Z.ltb_ge; exact Hi ]).
Qed.

(** X24.  An update with scope [thisAndFuture] never touches the past:
    whatever the request and the statement that fails, the instance rows
    dated before the current date, of every template, are after the update
    the rows they were before. *)
Theorem this_and_future_keeps_the_past
        (parseRRule : string -> string + Rule.t) (today : date) (s : store)
        (fault : option nat) (eventId : Z) (data : Request.t) :
  or_else (Request.updateScope data) "all" = "thisAndFuture" ->
  past today
    (cur (snd (put_api_events parseRRule today eventId (Some data)
                 (connect s fault))))
  = past today s.
Proof.
  intros Hscope.
  exact (proj1 (put_keeps_past parseRRule today s eventId data Hscope
                  (db_inv_connect _ s fault eq_refl))).
Qed.

(** X24, at the sample template updated a fortnight after its first date,
    the fifth statement failing. *)
Lemma this_and_future_keeps_the_past_witness :
  past (Sample.day0 + 14)
    (cur (snd (put_api_events RuleParser.parseRRule (Sample.day0 + 14) 1
                 (Some (Sample.retitled "Renamed" "FREQ=WEEKLY;COUNT=6"
                          (Some "thisAndFuture")))
                 (connect Sample.created (Some 5%nat)))))
  = past (Sample.day0 + 14) Sample.created.
Proof.
  exact (@this_and_future_keeps_the_past RuleParser.parseRRule
           (Sample.day0 + 14) Sample.created (Some 5%nat) 1
           (Sample.retitled "Renamed" "FREQ=WEEKLY;COUNT=6"
              (Some "thisAndFuture"))
           eq_refl).
Defined.

(** ** No row passes to another template *)

Section Identities.

Variable s0 : store.







End Identities.

(** ** Update with scope [thisAndFuture] *)




(** ** Every update and delete is answered *)

Lemma answers_read_bind {A B} (P : B -> Prop) (q : store -> A)
      (k : A -> M B) :
  (forall a, answers P (k a)) -> answers P (bind (read q) k).
Proof.
  intros Hk. apply answers_bind; [apply answers_tx, tx_read | exact Hk].
Qed.

(** X6.  Whatever the store and the request, and whichever of BEGIN,
    COMMIT and the writing statements fails (ROLLBACK itself succeeding),
    the update and the delete handlers return a response (they never
    throw), its status is 200, 400, 404 or 500 for an update and 200, 404
    or 500 for a delete, and no transaction is left open on the
    connection. *)
Theorem mutations_always_answer (parseRRule : string -> string + Rule.t)
        (today : date) (s : store) (fault : option nat) (eventId : Z)
        (json : option Request.t) (scope : option string)
        (instanceDate : option date) :
  (exists resp,
      fst (put_api_events parseRRule today eventId json (connect s fault))
      = Ok resp
      /\ In (status resp) [200; 400; 404; 500]
      /\ snapshot (snd (put_api_events parseRRule today eventId json
                          (connect s fault))) = None)
  /\ (exists resp,
        fst (delete_api_events eventId scope instanceDate (connect s fault))
        = Ok resp
        /\ In (status resp) [200; 404; 500]
        /\ snapshot (snd (delete_api_events eventId scope instanceDate
                            (connect s fault))) = None).
Proof.
  split.
  - unfold put_api_events.
    apply (@answered _ (fun resp => In (status resp) [200; 400; 404; 500]));
      [| intros e; simpl; tauto | reflexivity].
    destruct json as [data |]; [| apply answers_ret; simpl; tauto].
    destruct (validateRequiredFields data);
      [apply answers_ret; simpl; tauto |].
    apply answers_bind; [apply answers_tx; tx |]. intros [ev |];
      [| apply answers_ret; simpl; tauto].
    destruct (parse_recurrence parseRRule data) as [m | rule];
      [apply answers_ret; simpl; tauto |].
    destruct (Request.title data), (Request.startTime data),
      (Request.endTime data), (Request.venueId data);
      try apply answers_throw.
    cbv zeta. apply answers_block; [apply update_statements_tx |].
    apply answers_read_bind. intros e. apply answers_read_bind. intros l.
    apply answers_ret. simpl. tauto.
  - unfold delete_api_events.
    apply (@answered _ (fun resp => In (status resp) [200; 404; 500]));
      [| intros e; simpl; tauto | reflexivity].
    cbv zeta.
    apply answers_bind; [apply answers_tx; tx |]. intros [ev |];
      [| apply answers_ret; simpl; tauto].
    apply answers_block; [apply delete_statements_tx |].
    apply answers_ret. simpl. tauto.
Qed.

(** * What an update leaves *)

Lemma try_ret_state {A} (c : M A) (h : string -> A) (d : db) :
  snd (try_catch c (fun e => ret (h e)) d) = snd (c d).
Proof. unfold try_catch. now destruct (c d) as [[a | e] d1]. Qed.

Section UpdateOutcome.

Variable parseRRule : string -> string + Rule.t.
Variable today : date.

(** The store an update leaves satisfies what the store it found satisfies
    and the statements of its transaction, all accepted, establish. *)
Lemma put_outcome (P : store -> Prop) (s : store) (fault : option nat)
      (eventId : Z) (json : option Request.t) :
  P s ->
  (forall data rule title st et venueId e0,
      json = Some data ->
      validateRequiredFields data = None ->
      Sql.select_event eventId s = Some e0 ->
      parse_recurrence parseRRule data = inr rule ->
      Request.title data = Some title ->
      Request.startTime data = Some st ->
      Request.endTime data = Some et ->
      Request.venueId data = Some venueId ->
      ensures (eq s)
        (update_statements today eventId
           (template_row data rule title st et venueId)
           (or_else (Request.updateScope data) "all") rule)
        (fun _ => P)) ->
  P (cur (snd (put_api_events parseRRule today eventId json
                 (connect s fault)))).
Proof.
  intros Hs Hbody. unfold put_api_events. rewrite try_ret_state.
  destruct json as [data |]; [| exact Hs].
  destruct (validateRequiredFields data) eqn:Hv; [exact Hs |].
  unfold bind at 1, query. cbv beta iota. simpl (cur (connect s fault)).
  destruct (Sql.select_event eventId s) as [e0 |] eqn:He; [| exact Hs].
  destruct (parse_recurrence parseRRule data) as [m | rule] eqn:Hp;
    [exact Hs |].
  destruct (Request.title data) as [title |] eqn:Ht; [| exact Hs].
  destruct (Request.startTime data) as [st |] eqn:Hst; [| exact Hs].
  destruct (Request.endTime data) as [et |] eqn:Het; [| exact Hs].
  destruct (Request.venueId data) as [venueId |] eqn:Hvn; [| exact Hs].
  cbv zeta. unfold connect.
  apply block_cases with (Applied := P).
  - apply update_statements_tx.
  - now apply (Hbody data rule title st et venueId e0).
  - apply ro_read_bind. intros e. apply ro_read_bind. intros l. apply ro_ret.
  - exact Hs.
  - trivial.
Qed.

End UpdateOutcome.

(** ** The statements of an update of the whole series *)

Section UpdateEffects.

Variable today : date.
Variable eventId : Z.
Variable s : store.

Let tables_kept (s1 : store) : Prop :=
  Event_Instances s1 = Event_Instances s
  /\ Event_Instances_seq s1 = Event_Instances_seq s
  /\ Event_Exceptions s1 = Event_Exceptions s.

Lemma update_event_tables row :
  ensures (eq s) (run (Sql.update_event eventId row)) (fun _ => tables_kept).
Proof.
  apply ensures_run. intros s0 s1 t <- Hstmt. unfold Sql.update_event in Hstmt.
  destruct (existsb _ (Recurring_Events s)); [discriminate |].
  injection Hstmt as <- _. now repeat split.
Qed.

Let renewing (s2 : store) : Prop :=
  Event_Instances_seq s <= Event_Instances_seq s2 /\ renewed eventId s s2.

Lemma stale_is_unsheltered (s1 : store) (i : Instance.t) :
  Event_Exceptions s1 = Event_Exceptions s ->
  (Instance.recurring_event_id i =? eventId)
  && negb (Sql.mem_date (Instance.instance_date i)
             (Sql.exception_dates eventId s1))
  = negb (sheltered eventId s i).
Proof.
  intros Hx. unfold sheltered, Sql.exception_dates. rewrite Hx.
  now rewrite negb_orb, negb_involutive.
Qed.

Lemma delete_stale_all_renews :
  ensures tables_kept (delete_stale today eventId "all") (fun _ => renewing).
Proof.
  unfold delete_stale. change ("all" =? "all")%string with true. cbv iota.
  apply ensures_bind
    with (Q1 := fun a s1 => a = Sql.exception_dates eventId s1
                            /\ tables_kept s1).
  - apply ensures_query. auto.
  - intros excepted. apply ensures_run.
    intros s1 s2 t (-> & Hi & Hseq & Hx) [= <- _]. split; [simpl; lia |].
    intros i Hin Hsh. simpl in Hin. apply filter_In in Hin.
    destruct Hin as (_ & Hkeep). exfalso.
    rewrite (stale_is_unsheltered s1 i Hx), Hsh in Hkeep. discriminate.
Qed.

Lemma upsert_renewing g : stmt_keeps renewing (Sql.upsert_instance g).
Proof.
  intros s2 s3 t (Hseq & Hs). unfold Sql.upsert_instance.
  destruct (existsb (Sql.same_key g) (Event_Instances s2)); intros [= <- _];
    (split; [simpl; lia |]); intros i Hi Hsh; simpl in Hi.
  - apply in_map_iff in Hi. destruct Hi as (j & <- & Hj).
    destruct (Sql.same_key g j); [| now apply Hs].
    exact (Hs j Hj Hsh).
  - apply in_app_or in Hi. destruct Hi as [Hi | [<- | []]].
    + now apply Hs.
    + simpl. lia.
Qed.

Lemma regenerate_renewing scope rule :
  ensures renewing (regenerate today eventId scope rule) (fun _ => renewing).
Proof. unfold regenerate. keeps_by ltac:(apply upsert_renewing). Qed.

(** An update of the whole series that returns has deleted every row of
    the template whose date has no exception: the rows it leaves there are
    rows it inserted. *)
Lemma update_renews row rule :
  ensures (eq s) (update_statements today eventId row "all" rule)
    (fun _ => renewed eventId s).
Proof.
  unfold update_statements.
  eapply ensures_bind; [apply update_event_tables |]. intros ?.
  eapply ensures_bind; [apply delete_stale_all_renews |]. intros ?.
  eapply ensures_weaken; [apply regenerate_renewing | trivial |].
  intros ? s' H. apply H.
Qed.

(** *** The rows an accepted update of the whole series leaves *)

Variable row : Z -> Event.t.
Variable r : Rule.t.
Variable e0 : Event.t.

Hypothesis row_id : forall i, Event.id (row i) = i.
Hypothesis found : Sql.select_event eventId s = Some e0.










End UpdateEffects.

(** ** The template row *)

Section TemplateRow.

Variable today : date.
Variable eventId : Z.
Variable s : store.
Variable row : Z -> Event.t.






End TemplateRow.

Lemma update_event_refused eventId row s e0 :
  Sql.select_event eventId s = Some e0 ->
  (forall i, Sql.has_frequency (row i) = false) ->
  Sql.update_event eventId row s = None.
Proof.
  intros He Hrow. unfold Sql.update_event.
  apply find_some in He. destruct He as (Hin & Hid).
  assert (E : existsb (fun e => (Event.id e =? eventId)
                                && negb (Sql.has_frequency (row (Event.id e))))
                (Recurring_Events s) = true).
  { apply existsb_exists. exists e0. split; [exact Hin |].
    now rewrite Hid, Hrow. }
  now rewrite E.
Qed.

Section UpdateClaims.

Variable parseRRule : string -> string + Rule.t.
Variable today : date.

Lemma put_renews (s : store) (fault : option nat) (eventId : Z)
      (data : Request.t) :
  or_else (Request.updateScope data) "all" = "all" ->
  let s' := cur (snd (put_api_events parseRRule today eventId (Some data)
                        (connect s fault))) in
  s' = s \/ renewed eventId s s'.
Proof.
  intros Hscope.
  apply put_outcome with (P := fun s' => s' = s \/ renewed eventId s s');
    [now left |].
  intros data0 rule title st et venueId e0 [= <-] _ _ _ _ _ _ _.
  rewrite Hscope.
  eapply ensures_weaken; [apply update_renews with (s := s) | trivial |].
  intros ? s' H. now right.
Qed.

(** C4.  A valid update of a template with scope [all] never keeps the
    instance rows it found and appends to them.  Whichever statement the
    binding refuses, the store is left as it was (no row is appended: a
    template of four occurrences keeps its four rows), or every instance
    row of the template whose date has no exception bears an identifier
    handed out by this update (the rows found were deleted and inserted
    anew).  On the binding that refuses BEGIN the update is answered with
    status 500 and the store is as it was. *)
Theorem count_change_recreates_rows (s : store) (eventId : Z)
        (data : Request.t) (e0 : Event.t) (rule : option Rule.t)
        (title : string) (st et : datetime) (venueId : Z) :
  validateRequiredFields data = None ->
  Sql.select_event eventId s = Some e0 ->
  parse_recurrence parseRRule data = inr rule ->
  Request.title data = Some title ->
  Request.startTime data = Some st ->
  Request.endTime data = Some et ->
  Request.venueId data = Some venueId ->
  or_else (Request.updateScope data) "all" = "all" ->
  (forall fault,
      let s' := cur (snd (put_api_events parseRRule today eventId (Some data)
                            (connect s fault))) in
      s' = s \/ renewed eventId s s')
  /\ exists message,
       put_api_events parseRRule today eventId (Some data)
         (connect s begin_refused)
       = (Ok (errorResponse
                ("Error updating recurring event: " ++ message) 500),
          mkDb s None None no_change).
Proof.
  intros Hv He Hp Ht Hst Het Hvn Hscope. split.
  - intros fault. now apply put_renews.
  - eexists. now apply (@put_refused parseRRule today s eventId data e0 rule
                          title st et venueId).
Qed.



(** X23.  An update whose body carries no recurrence rule is refused: the
    UPDATE binds NULL to the frequency of the template, which the column
    does not take.  Whatever the scope and whichever statement the binding
    refuses, a request that passes validation and names a template that
    exists is answered with status 500 and the store is left as it was,
    with no transaction open. *)
Theorem update_without_rule_is_refused (s : store) (fault : option nat)
        (eventId : Z) (data : Request.t) (e0 : Event.t) (title : string)
        (st et : datetime) (venueId : Z) :
  validateRequiredFields data = None ->
  Sql.select_event eventId s = Some e0 ->
  truthy_string (Request.recurrenceRule data) = false ->
  Request.title data = Some title ->
  Request.startTime data = Some st ->
  Request.endTime data = Some et ->
  Request.venueId data = Some venueId ->
  exists message d',
    put_api_events parseRRule today eventId (Some data) (connect s fault)
    = (Ok (errorResponse
             ("Error updating recurring event: " ++ message) 500), d')
    /\ cur d' = s /\ snapshot d' = None.
Proof.
  intros Hv He Hrule Ht Hst Het Hvn.
  assert (Hp : parse_recurrence parseRRule data = inr None).
  { unfold parse_recurrence. now rewrite Hrule. }
  assert (Hrefused :
            Sql.update_event eventId
              (template_row data None title st et venueId) s = None).
  { apply update_event_refused with (e0 := e0); [exact He | reflexivity]. }
  unfold put_api_events, try_catch at 1, bind at 1, query, connect.
  rewrite Hv. simpl. rewrite He, Hp, Ht, Hst, Het, Hvn. cbv zeta.
  unfold update_statements, try_catch, bind, BEGIN, run, ROLLBACK, throw, ret.
  destruct fault as [[| [| n]] |]; simpl; try rewrite Hrefused; simpl;
    eexists; eexists; (split; [reflexivity | split; reflexivity]).
Qed.

End UpdateClaims.

(** ** The updates of the repository's tests *)


(** C4, at the template of the tests, created with FREQ=WEEKLY;COUNT=4 and
    updated with FREQ=WEEKLY;COUNT=6 and no scope. *)
Lemma count_change_recreates_rows_witness :
  (forall fault,
      let s' := cur (snd (put_api_events RuleParser.parseRRule Sample.day0 1
                            (Some (Sample.request "FREQ=WEEKLY;COUNT=6" None))
                            (connect Sample.created fault))) in
      s' = Sample.created \/ renewed 1 Sample.created s')
  /\ exists message,
       put_api_events RuleParser.parseRRule Sample.day0 1
         (Some (Sample.request "FREQ=WEEKLY;COUNT=6" None))
         (connect Sample.created begin_refused)
       = (Ok (errorResponse
                ("Error updating recurring event: " ++ message) 500),
          mkDb Sample.created None None no_change).
Proof.
  exact (@count_change_recreates_rows RuleParser.parseRRule Sample.day0
           Sample.created 1 (Sample.request "FREQ=WEEKLY;COUNT=6" None)
           Sample.template (Some (Rule.mk weekly 1 (Some 6) None []))
           "Test Recurring Event" (mkDateTime Sample.day0 "10:00:00Z")
           (mkDateTime Sample.day0 "11:00:00Z") 1
           eq_refl eq_refl eq_refl eq_refl eq_refl eq_refl eq_refl eq_refl).
Defined.



(** X23, at the template of the tests updated by a body without
    [recurrenceRule], every statement being accepted that can be. *)
Lemma update_without_rule_is_refused_witness :
  exists message d',
    put_api_events RuleParser.parseRRule Sample.day0 1
      (Some (Request.mk (Some "Renamed") None
               (Some (mkDateTime Sample.day0 "10:00:00Z"))
               (Some (mkDateTime Sample.day0 "11:00:00Z"))
               (Some 1) None None))
      (connect Sample.created None)
    = (Ok (errorResponse
             ("Error updating recurring event: " ++ message) 500), d')
    /\ cur d' = Sample.created /\ snapshot d' = None.
Proof.
  exact (@update_without_rule_is_refused RuleParser.parseRRule Sample.day0
           Sample.created None 1
           (Request.mk (Some "Renamed") None
              (Some (mkDateTime Sample.day0 "10:00:00Z"))
              (Some (mkDateTime Sample.day0 "11:00:00Z"))
              (Some 1) None None)
           Sample.template "Renamed" (mkDateTime Sample.day0 "10:00:00Z")
           (mkDateTime Sample.day0 "11:00:00Z") 1
           eq_refl eq_refl eq_refl eq_refl eq_refl eq_refl eq_refl).
Defined.

(** * What a delete leaves *)

(** The store a delete leaves satisfies what the store it found satisfies
    and the statements of its transaction, all accepted, establish. *)
Lemma delete_outcome (P : store -> Prop) (s : store) (fault : option nat)
      (eventId : Z) (scope : option string) (instanceDate : option date) :
  P s ->
  (forall e0,
      Sql.select_event eventId s = Some e0 ->
      ensures (eq s)
        (delete_statements eventId (or_else scope "all") instanceDate)
        (fun _ => P)) ->
  P (cur (snd (delete_api_events eventId scope instanceDate
                 (connect s fault)))).
Proof.
  intros Hs Hbody. unfold delete_api_events. rewrite try_ret_state.
  cbv zeta. unfold bind at 1, query. cbv beta iota.
  simpl (cur (connect s fault)).
  destruct (Sql.select_event eventId s) as [e0 |] eqn:He; [| exact Hs].
  unfold connect. apply block_cases with (Applied := P).
  - apply delete_statements_tx.
  - now apply (Hbody e0).
  - apply ro_ret.
  - exact Hs.
  - trivial.
Qed.

Lemma find_filter_out {A} (p : A -> bool) (l : list A) :
  find p (filter (fun a => negb (p a)) l) = None.
Proof.
  induction l as [| a l IH]; simpl; [reflexivity |].
  destruct (p a) eqn:E; simpl; [exact IH |]. now rewrite E.
Qed.

Lemma filter_filter_out {A} (p : A -> bool) (l : list A) :
  filter p (filter (fun a => negb (p a)) l) = [].
Proof.
  induction l as [| a l IH]; simpl; [reflexivity |].
  destruct (p a) eqn:E; simpl; [exact IH |]. now rewrite E.
Qed.

Lemma filter_out_twice {A} (p : A -> bool) (l : list A) :
  filter (fun a => negb (p a)) (filter (fun a => negb (p a)) l)
  = filter (fun a => negb (p a)) l.
Proof.
  induction l as [| a l IH]; simpl; [reflexivity |].
  destruct (p a) eqn:E; simpl; [exact IH |]. now rewrite E, IH.
Qed.

Section DeleteEffects.

Variable eventId : Z.
Variable s : store.

Lemma delete_all_gone instanceDate :
  ensures (eq s) (delete_statements eventId "all" instanceDate)
    (fun _ => template_gone eventId s).
Proof.
  unfold delete_statements. change ("all" =? "all")%string with true.
  cbv iota.
  apply ensures_bind
    with (Q1 := fun _ s1 =>
                  Recurring_Events s1 = Recurring_Events s
                  /\ Event_Instances s1 = other_instances eventId s
                  /\ Event_Exceptions s1 = Event_Exceptions s).
  { apply ensures_run. intros s0 s1 t <- [= <- _]. now repeat split. }
  intros ?.
  apply ensures_bind
    with (Q1 := fun _ s1 =>
                  Recurring_Events s1 = Recurring_Events s
                  /\ Event_Instances s1 = other_instances eventId s
                  /\ Event_Exceptions s1 = other_exceptions eventId s).
  { apply ensures_run. intros s1 s2 t (Ht & Hi & Hx) [= <- _]. simpl.
    unfold other_exceptions. now rewrite Hx. }
  intros ?.
  apply ensures_run. intros s1 s2 t (Ht & Hi & Hx) [= <- _].
  unfold template_gone. simpl. rewrite Ht, Hi, Hx.
  unfold other_instances, other_exceptions.
  now rewrite !filter_out_twice.
Qed.

Lemma insert_exception_effect d s1 s2 t :
  Sql.insert_or_ignore_exception eventId d s1 = Some (s2, t) ->
  Recurring_Events s2 = Recurring_Events s1
  /\ Event_Instances s2 = Event_Instances s1
  /\ Sql.has_exception eventId d s2 = true
  /\ forall d', Sql.has_exception eventId d' s1 = true ->
                Sql.has_exception eventId d' s2 = true.
Proof.
  unfold Sql.insert_or_ignore_exception, Sql.touched.
  destruct (Sql.has_exception eventId d s1) eqn:E; intros [= <- _]; simpl.
  - repeat split; try exact E. trivial.
  - repeat split.
    + unfold Sql.has_exception. simpl. rewrite existsb_app. simpl.
      unfold Sql.excepts at 2. simpl. rewrite !Z.eqb_refl.
      now rewrite orb_true_r.
    + intros d' H. unfold Sql.has_exception in *. simpl.
      rewrite existsb_app, H. reflexivity.
Qed.

Lemma cancel_this_effect d :
  ensures (eq s) (delete_statements eventId "this" (Some d))
    (fun _ s' => cancelled_where (Sql.on_date eventId d) s s'
                 /\ Sql.has_exception eventId d s' = true).
Proof.
  unfold delete_statements. change ("this" =? "all")%string with false.
  change ("this" =? "thisAndFuture")%string with false.
  change ("this" =? "this")%string with true. cbv iota.
  apply ensures_bind
    with (Q1 := fun _ => cancelled_where (Sql.on_date eventId d) s).
  { apply ensures_run. intros s0 s1 t <- [= <- _]. now split. }
  intros ?. apply ensures_run. intros s1 s2 t (Ht & Hi) Hstmt.
  destruct (insert_exception_effect d s1 Hstmt) as (Ht' & Hi' & Hx & _).
  split; [| exact Hx]. split; congruence.
Qed.

Lemma cancel_future_effect d :
  ensures (eq s) (delete_statements eventId "thisAndFuture" (Some d))
    (fun _ s' =>
       cancelled_where (from_date eventId d) s s'
       /\ forall i, In i (Event_Instances s) -> from_date eventId d i = true ->
                    Sql.has_exception eventId (Instance.instance_date i) s'
                    = true).
Proof.
  unfold delete_statements.
  change ("thisAndFuture" =? "all")%string with false.
  change ("thisAndFuture" =? "thisAndFuture")%string with true. cbv iota.
  apply ensures_bind
    with (Q1 := fun _ => cancelled_where (from_date eventId d) s).
  { apply ensures_run. intros s0 s1 t <- [= <- _]. now split. }
  intros ?.
  apply ensures_bind
    with (Q1 := fun futureDates s1 =>
                  cancelled_where (from_date eventId d) s s1
                  /\ forall i, In i (Event_Instances s) ->
                               from_date eventId d i = true ->
                               In (Instance.instance_date i) futureDates).
  { apply ensures_read. intros s1 (Ht & Hi). split; [now split |].
    intros i Hin Hp. rewrite Hi.
    apply in_map_iff. exists (Sql.mark true i). split; [reflexivity |].
    apply filter_In. split; [| exact Hp].
    apply in_map_iff. exists i. split; [| exact Hin].
    now rewrite Hp. }
  intros futureDates.
  eapply ensures_weaken.
  - apply (@ensures_for_each _
             (fun done s' =>
                cancelled_where (from_date eventId d) s s'
                /\ (forall i, In i (Event_Instances s) ->
                              from_date eventId d i = true ->
                              In (Instance.instance_date i) futureDates)
                /\ forall x, In x done ->
                             Sql.has_exception eventId x s' = true))
      with (done := []).
    intros done x Hx. apply ensures_run.
    intros s1 s2 t ((Ht & Hi) & Hall & Hdone) Hstmt.
    destruct (insert_exception_effect x s1 Hstmt) as (Ht' & Hi' & Hnew & Hold).
    split; [split; congruence |]. split; [exact Hall |].
    intros y Hy. apply in_app_or in Hy. destruct Hy as [Hy | [<- | []]].
    + apply Hold. now apply Hdone.
    + exact Hnew.
  - intros s1 (Hc & Hall). split; [exact Hc |]. split; [exact Hall |].
    intros x [].
  - intros ? s' (Hc & Hall & Hdone). split; [exact Hc |].
    intros i Hin Hp. apply Hdone. simpl. now apply Hall.
Qed.

End DeleteEffects.

(** A delete that runs no statement between BEGIN and COMMIT. *)
Lemma delete_idle (s : store) (fault : option nat) (eventId : Z)
      (e0 : Event.t) (scope : option string) (instanceDate : option date) :
  Sql.select_event eventId s = Some e0 ->
  delete_statements eventId (or_else scope "all") instanceDate = ret tt ->
  exists resp d',
    delete_api_events eventId scope instanceDate (connect s fault)
    = (Ok resp, d')
    /\ cur d' = s /\ snapshot d' = None
    /\ (resp = jsonResponse
                 (DeleteBody true
                    ("Event "
                     ++ (if (or_else scope "all" =? "all")%string
                         then "deleted" else "cancelled")
                     ++ " successfully")
                    (or_else scope "all"))
                 200
        \/ exists message,
             resp = errorResponse
                      ("Error deleting recurring event: " ++ message) 500).
Proof.
  intros He Hidle.
  unfold delete_api_events, try_catch at 1, bind at 1, query, connect.
  cbv zeta. simpl. rewrite He, Hidle.
  unfold try_catch, bind, BEGIN, COMMIT, ROLLBACK, throw, ret.
  destruct fault as [[| [| n]] |]; simpl; eexists; eexists;
    (split; [reflexivity |]); (split; [reflexivity |]);
    (split; [reflexivity |]);
    first [ left; reflexivity | right; eexists; reflexivity ].
Qed.

(** C7.  Cancelling one instance of a template that exists, with scope
    [this] and its date.  On the binding that refuses BEGIN the request is
    answered with status 500 and the store is as it was: the instance is
    not marked cancelled and no exception is recorded.  Whichever statement
    is refused, the store is left as it was, or the instance rows of the
    template on that date are marked cancelled, every other row of the
    instance table and the template table being as found, and an exception
    is recorded for the date. *)
Theorem cancel_marks_or_leaves (s : store) (eventId : Z) (e0 : Event.t)
        (scope : option string) (d : date) :
  Sql.select_event eventId s = Some e0 ->
  or_else scope "all" = "this" ->
  (exists message,
      delete_api_events eventId scope (Some d) (connect s begin_refused)
      = (Ok (errorResponse
               ("Error deleting recurring event: " ++ message) 500),
         mkDb s None None no_change))
  /\ forall fault,
       let s' := cur (snd (delete_api_events eventId scope (Some d)
                             (connect s fault))) in
       s' = s
       \/ (cancelled_where (Sql.on_date eventId d) s s'
           /\ Sql.has_exception eventId d s' = true).
Proof.
  intros He Hscope. split.
  - eexists. now apply delete_refused with (e0 := e0).
  - intros fault.
    apply delete_outcome
      with (P := fun s' =>
                   s' = s
                   \/ (cancelled_where (Sql.on_date eventId d) s s'
                       /\ Sql.has_exception eventId d s' = true));
      [now left |].
    intros _ _. rewrite Hscope.
    eapply ensures_weaken;
      [apply cancel_this_effect with (s := s) | trivial |].
    intros ? s' H. right. exact H.
Qed.

(** C10.  A delete with scope [this] or [thisAndFuture] and no date, of a
    template that exists, runs no statement between BEGIN and COMMIT:
    whichever of the two is refused the store is left as it was, no
    transaction is open, and the answer is the confirmation with status
    200 or an error with status 500, never a rejection of the request; on
    the binding that refuses BEGIN it is the error. *)
Theorem delete_without_date_changes_nothing (s : store) (eventId : Z)
        (e0 : Event.t) (scope : option string) :
  Sql.select_event eventId s = Some e0 ->
  or_else scope "all" = "this" \/ or_else scope "all" = "thisAndFuture" ->
  (forall fault,
      exists resp d',
        delete_api_events eventId scope None (connect s fault) = (Ok resp, d')
        /\ cur d' = s /\ snapshot d' = None
        /\ (resp = jsonResponse
                     (DeleteBody true "Event cancelled successfully"
                        (or_else scope "all"))
                     200
            \/ exists message,
                 resp = errorResponse
                          ("Error deleting recurring event: " ++ message)
                          500))
  /\ exists message,
       delete_api_events eventId scope None (connect s begin_refused)
       = (Ok (errorResponse
                ("Error deleting recurring event: " ++ message) 500),
          mkDb s None None no_change).
Proof.
  intros He Hscope. split.
  - intros fault.
    assert (Hidle : delete_statements eventId (or_else scope "all") None
                    = ret tt)
      by (destruct Hscope as [-> | ->]; reflexivity).
    destruct (@delete_idle s fault eventId e0 scope None He Hidle)
      as (resp & d' & Hrun & Hc & Hs & Hresp).
    exists resp, d'. repeat (split; [assumption |]).
    destruct Hscope as [E | E]; rewrite E in Hresp |- *; exact Hresp.
  - eexists. now apply delete_refused with (e0 := e0).
Qed.

(** X7.  Deleting a template with scope [all] (the scope given, empty or
    absent): whichever statement is refused, the store is left as it was,
    or nothing of the template is left (its row, its instance rows and
    its exceptions are gone, the rows of the other templates being those
    found) and a request for it is answered with 404. *)
Theorem delete_all_removes_template (s : store) (fault : option nat)
        (eventId : Z) (scope : option string) (instanceDate : option date) :
  or_else scope "all" = "all" ->
  let s' := cur (snd (delete_api_events eventId scope instanceDate
                        (connect s fault))) in
  s' = s
  \/ (template_gone eventId s s'
      /\ Sql.select_event eventId s' = None
      /\ Sql.select_instances eventId s' = []
      /\ Sql.exception_dates eventId s' = []
      /\ fst (get_api_events_id eventId (connect s' None))
         = Ok (errorResponse "Event not found" 404)).
Proof.
  intros Hscope.
  apply delete_outcome
    with (P := fun s' =>
                 s' = s
                 \/ (template_gone eventId s s'
                     /\ Sql.select_event eventId s' = None
                     /\ Sql.select_instances eventId s' = []
                     /\ Sql.exception_dates eventId s' = []
                     /\ fst (get_api_events_id eventId (connect s' None))
                        = Ok (errorResponse "Event not found" 404)));
    [now left |].
  intros _ _. rewrite Hscope.
  eapply ensures_weaken;
    [apply delete_all_gone with (s := s) | trivial |].
  intros ? s' (Ht & Hi & Hx). right.
  assert (Hgone : Sql.select_event eventId s' = None).
  { unfold Sql.select_event. rewrite Ht. apply find_filter_out. }
  split; [now repeat split |]. split; [exact Hgone |].
  split; [| split].
  - unfold Sql.select_instances. rewrite Hi. unfold other_instances.
    now rewrite filter_filter_out.
  - unfold Sql.exception_dates. rewrite Hx. unfold other_exceptions.
    now rewrite filter_filter_out.
  - unfold get_api_events_id, try_catch, bind, query. simpl.
    now rewrite Hgone.
Qed.

(** X8.  Deleting with scope [thisAndFuture] from a date [d]: whichever
    statement is refused, the store is left as it was, or the template
    table is as found, the instance rows of the template dated [d] or later
    are marked cancelled, every other instance row being as found, and an
    exception is recorded for the date of each of them. *)
Theorem delete_this_and_future_cancels (s : store) (fault : option nat)
        (eventId : Z) (scope : option string) (d : date) :
  or_else scope "all" = "thisAndFuture" ->
  let s' := cur (snd (delete_api_events eventId scope (Some d)
                        (connect s fault))) in
  s' = s
  \/ (cancelled_where (from_date eventId d) s s'
      /\ forall i, In i (Event_Instances s) -> from_date eventId d i = true ->
                   Sql.has_exception eventId (Instance.instance_date i) s'
                   = true).
Proof.
  intros Hscope.
  apply delete_outcome
    with (P := fun s' =>
                 s' = s
                 \/ (cancelled_where (from_date eventId d) s s'
                     /\ forall i, In i (Event_Instances s) ->
                                  from_date eventId d i = true ->
                                  Sql.has_exception eventId
                                    (Instance.instance_date i) s' = true));
    [now left |].
  intros _ _. rewrite Hscope.
  eapply ensures_weaken;
    [apply cancel_future_effect with (s := s) | trivial |].
  intros ? s' H. right. exact H.
Qed.


(** X10.  A delete whose scope is none of [all], [this] and
    [thisAndFuture], of a template that exists, runs no statement between
    BEGIN and COMMIT: whichever of the two is refused the store is left as
    it was, and the answer is the confirmation with status 200 or an error
    with status 500; the scope is never rejected. *)
Theorem delete_unknown_scope_changes_nothing (s : store)
        (fault : option nat) (eventId : Z) (e0 : Event.t) (scope : string)
        (instanceDate : option date) :
  Sql.select_event eventId s = Some e0 ->
  scope <> "" ->
  scope <> "all" -> scope <> "this" -> scope <> "thisAndFuture" ->
  exists resp d',
    delete_api_events eventId (Some scope) instanceDate (connect s fault)
    = (Ok resp, d')
    /\ cur d' = s /\ snapshot d' = None
    /\ (resp = jsonResponse
                 (DeleteBody true "Event cancelled successfully" scope) 200
        \/ exists message,
             resp = errorResponse
                      ("Error deleting recurring event: " ++ message) 500).
Proof.
  intros He Hempty Hall Hthis Hfuture.
  assert (Hscope : or_else (Some scope) "all" = scope).
  { unfold or_else, truthy_string.
    destruct (String.eqb_spec scope ""); [contradiction | reflexivity]. }
  assert (Hidle : delete_statements eventId (or_else (Some scope) "all")
                    instanceDate = ret tt).
  { rewrite Hscope. unfold delete_statements.
    destruct (String.eqb_spec scope "all"); [contradiction |].
    destruct (String.eqb_spec scope "thisAndFuture"); [contradiction |].
    destruct (String.eqb_spec scope "this"); [contradiction |].
    now destruct instanceDate. }
  destruct (@delete_idle s fault eventId e0 (Some scope) instanceDate He Hidle)
    as (resp & d' & Hrun & Hc & Hs & Hresp).
  exists resp, d'. repeat (split; [assumption |]).
  rewrite Hscope in Hresp.
  destruct (String.eqb_spec scope "all"); [contradiction | exact Hresp].
Qed.

(** X25.  On the binding that refuses BEGIN, every update and every delete
    that passes validation and names a template that exists is answered
    with status 500, whatever its scope, and the store is as it was. *)
Theorem refused_begin_fails_every_mutation
        (parseRRule : string -> string + Rule.t) (today : date) (s : store)
        (eventId : Z) (e0 : Event.t) :
  Sql.select_event eventId s = Some e0 ->
  (forall data rule title st et venueId,
      validateRequiredFields data = None ->
      parse_recurrence parseRRule data = inr rule ->
      Request.title data = Some title ->
      Request.startTime data = Some st ->
      Request.endTime data = Some et ->
      Request.venueId data = Some venueId ->
      exists message,
        put_api_events parseRRule today eventId (Some data)
          (connect s begin_refused)
        = (Ok (errorResponse
                 ("Error updating recurring event: " ++ message) 500),
           mkDb s None None no_change))
  /\ (forall scope instanceDate,
         exists message,
           delete_api_events eventId scope instanceDate
             (connect s begin_refused)
           = (Ok (errorResponse
                    ("Error deleting recurring event: " ++ message) 500),
              mkDb s None None no_change)).
Proof.
  intros He. split.
  - intros data rule title st et venueId Hv Hp Ht Hst Het Hvn. eexists.
    now apply (@put_refused parseRRule today s eventId data e0 rule title
                 st et venueId).
  - intros scope instanceDate. eexists.
    now apply delete_refused with (e0 := e0).
Qed.

(** ** The deletes of the repository's tests *)

(** C7, at the third instance of the template of the tests
    (2025-04-15). *)
Lemma cancel_marks_or_leaves_witness :
  (exists message,
      delete_api_events 1 (Some "this") (Some (Sample.day0 + 14))
        (connect Sample.created begin_refused)
      = (Ok (errorResponse
               ("Error deleting recurring event: " ++ message) 500),
         mkDb Sample.created None None no_change))
  /\ forall fault,
       let s' := cur (snd (delete_api_events 1 (Some "this")
                             (Some (Sample.day0 + 14))
                             (connect Sample.created fault))) in
       s' = Sample.created
       \/ (cancelled_where (Sql.on_date 1 (Sample.day0 + 14))
             Sample.created s'
           /\ Sql.has_exception 1 (Sample.day0 + 14) s' = true).
Proof.
  exact (@cancel_marks_or_leaves Sample.created 1 Sample.template
           (Some "this") (Sample.day0 + 14) eq_refl eq_refl).
Defined.

(** C10, at the template of the tests and scope [this]. *)
Lemma delete_without_date_changes_nothing_witness :
  exists message,
    delete_api_events 1 (Some "this") None
      (connect Sample.created begin_refused)
    = (Ok (errorResponse
             ("Error deleting recurring event: " ++ message) 500),
       mkDb Sample.created None None no_change).
Proof.
  exact (proj2 (@delete_without_date_changes_nothing Sample.created 1
                  Sample.template (Some "this") eq_refl
                  (or_introl eq_refl))).
Defined.

(** X7, at the template of the tests, no scope given, the third statement
    refused. *)
Lemma delete_all_removes_template_witness :
  let s' := cur (snd (delete_api_events 1 None None
                        (connect Sample.created (Some 3%nat)))) in
  s' = Sample.created
  \/ (template_gone 1 Sample.created s'
      /\ Sql.select_event 1 s' = None
      /\ Sql.select_instances 1 s' = []
      /\ Sql.exception_dates 1 s' = []
      /\ fst (get_api_events_id 1 (connect s' None))
         = Ok (errorResponse "Event not found" 404)).
Proof.
  exact (@delete_all_removes_template Sample.created (Some 3%nat) 1 None
           None eq_refl).
Defined.

(** X8, at the template of the tests cancelled from its second date on. *)
Lemma delete_this_and_future_cancels_witness :
  let s' := cur (snd (delete_api_events 1 (Some "thisAndFuture")
                        (Some (Sample.day0 + 7))
                        (connect Sample.created (Some 2%nat)))) in
  s' = Sample.created
  \/ (cancelled_where (from_date 1 (Sample.day0 + 7)) Sample.created s'
      /\ forall i, In i (Event_Instances Sample.created) ->
                   from_date 1 (Sample.day0 + 7) i = true ->
                   Sql.has_exception 1 (Instance.instance_date i) s' = true).
Proof.
  exact (@delete_this_and_future_cancels Sample.created (Some 2%nat) 1
           (Some "thisAndFuture") (Sample.day0 + 7) eq_refl).
Defined.


(** X10, at the template of the tests and the scope [everything]. *)
Lemma delete_unknown_scope_changes_nothing_witness :
  exists resp d',
    delete_api_events 1 (Some "everything") None
      (connect Sample.created begin_refused)
    = (Ok resp, d')
    /\ cur d' = Sample.created /\ snapshot d' = None
    /\ (resp = jsonResponse
                 (DeleteBody true "Event cancelled successfully" "everything")
                 200
        \/ exists message,
             resp = errorResponse
                      ("Error deleting recurring event: " ++ message) 500).
Proof.
  apply (@delete_unknown_scope_changes_nothing Sample.created begin_refused 1
           Sample.template "everything" None eq_refl); discriminate.
Defined.

(** X25, at the template of the tests. *)
Lemma refused_begin_fails_every_mutation_witness :
  (exists message,
      put_api_events RuleParser.parseRRule Sample.day0 1
        (Some (Sample.request "FREQ=WEEKLY;COUNT=6" None))
        (connect Sample.created begin_refused)
      = (Ok (errorResponse
               ("Error updating recurring event: " ++ message) 500),
         mkDb Sample.created None None no_change))
  /\ (exists message,
         delete_api_events 1 None None (connect Sample.created begin_refused)
         = (Ok (errorResponse
                  ("Error deleting recurring event: " ++ message) 500),
            mkDb Sample.created None None no_change)).
Proof.
  destruct (@refused_begin_fails_every_mutation RuleParser.parseRRule
              Sample.day0 Sample.created 1 Sample.template eq_refl)
    as (Hput & Hdel).
  split.
  - exact (Hput (Sample.request "FREQ=WEEKLY;COUNT=6" None)
             (Some (Rule.mk weekly 1 (Some 6) None []))
             "Test Recurring Event" (mkDateTime Sample.day0 "10:00:00Z")
             (mkDateTime Sample.day0 "11:00:00Z") 1
             eq_refl eq_refl eq_refl eq_refl eq_refl eq_refl).
  - exact (Hdel None None).
Defined.

(** * Creating *)

(** X19.  What the create handler refuses, it refuses before any
    statement: a body that is not JSON, a body in which [title],
    [startTime], [endTime] or [venueId] is missing or falsy (an empty
    title, a venue 0), and a rule text that [parseRRule] rejects are each
    answered with status 400 and the connection is left exactly as it was.
    The update handler checks the body and the required fields in the same
    way before it looks for the template, so that such a request is
    answered 400 also when the template does not exist.  The fields are
    accepted exactly when the title is a non-empty text, both times are
    present and the venue is a number other than 0. *)
Theorem create_rejects_before_writing
        (parseRRule : string -> string + Rule.t) (today : date) (d : db)
        (eventId : Z) :
  post_api_events parseRRule None d
  = (Ok (errorResponse "Invalid JSON in request body" 400), d)
  /\ put_api_events parseRRule today eventId None d
     = (Ok (errorResponse "Invalid JSON in request body" 400), d)
  /\ (forall data missing,
        validateRequiredFields data = Some missing ->
        post_api_events parseRRule (Some data) d
        = (Ok (errorResponse missing 400), d)
        /\ put_api_events parseRRule today eventId (Some data) d
           = (Ok (errorResponse missing 400), d))
  /\ (forall data text message,
        validateRequiredFields data = None ->
        Request.recurrenceRule data = Some text ->
        text <> "" ->
        parseRRule text = inl message ->
        post_api_events parseRRule (Some data) d
        = (Ok (errorResponse ("Invalid recurrence rule: " ++ message) 400), d))
  /\ (forall data,
        validateRequiredFields data = None
        <-> (exists title, Request.title data = Some title /\ title <> "")
            /\ Request.startTime data <> None
            /\ Request.endTime data <> None
            /\ (exists venueId, Request.venueId data = Some venueId
                                /\ venueId <> 0)).
Proof.
  split; [reflexivity |]. split; [reflexivity |].
  split; [| split].
  - intros data missing Hv.
    unfold post_api_events, create_visible, put_api_events, try_catch, bind, ret.
    now rewrite Hv.
  - intros data text message Hv Hrule Htext Hparse.
    assert (Hp : parse_recurrence parseRRule data = inl message).
    { unfold parse_recurrence, or_else. rewrite Hrule. simpl.
      destruct (String.eqb_spec text ""); [contradiction |]. simpl.
      now rewrite Hparse. }
    unfold post_api_events, create_visible, try_catch, bind, ret. now rewrite Hv, Hp.
  - intros data. unfold validateRequiredFields, truthy_string, truthy_number,
      truthy.
    destruct (Request.title data) as [title |],
             (Request.startTime data) as [st |],
             (Request.endTime data) as [et |],
             (Request.venueId data) as [venueId |];
      try destruct (String.eqb_spec title "");
      try destruct (Z.eqb_spec venueId 0); simpl;
      split; try discriminate; try reflexivity;
      try (intros ((t & Ht & Hne) & Hs & He & (v & Hv & Hnz)); congruence).
    intros _. repeat split; try discriminate; eexists; split;
      try reflexivity; assumption.
Qed.

(** ** The template row a create inserts *)

Section Create.

Variable parseRRule : string -> string + Rule.t.

(** C3.  The create handler inserts the template outside any transaction.
    For a request that passes validation and carries a rule, the INSERT
    of the template being accepted: when the listed part of the handler
    ends, by reaching the generation of the instances or by throwing at the
    read of the new row, the template row is stored under the next
    identifier, no instance row is stored with it, no transaction is open
    and a ROLLBACK changes nothing; when the read is refused the handler
    leaves its [try] with the template stored. *)
Theorem create_failure_persists_template (s : store) (fault : option nat)
        (data : Request.t) (r : Rule.t) (title : string) (st et : datetime)
        (venueId : Z) :
  validateRequiredFields data = None ->
  parse_recurrence parseRRule data = inr (Some r) ->
  Request.title data = Some title ->
  Request.startTime data = Some st ->
  Request.endTime data = Some et ->
  Request.venueId data = Some venueId ->
  fault <> Some 0%nat ->
  let reached := create_visible parseRRule (Some data) (connect s fault) in
  Recurring_Events (cur (snd reached))
  = (Recurring_Events s
       ++ [template_row data (Some r) title st et venueId
             (Recurring_Events_seq s + 1)])%list
  /\ Event_Instances (cur (snd reached)) = Event_Instances s
  /\ snapshot (snd reached) = None
  /\ cur (snd (ROLLBACK (snd reached))) = cur (snd reached)
  /\ (fault = Some 1%nat -> exists message, fst reached = Throw message).
Proof.
  intros Hv Hp Ht Hst Het Hvn Hfault.
  unfold create_visible. rewrite Hv, Hp, Ht, Hst, Het, Hvn.
  unfold read, bind, run, query, unchanged, Sql.insert_event, Sql.touched,
    connect, ROLLBACK.
  destruct fault as [[| [| n]] |]; [contradiction | | |]; simpl;
    try (repeat split; try reflexivity;
         try (intros _; eexists; reflexivity); discriminate);
    match goal with
    | |- context [Sql.select_event ?i ?s1] =>
        destruct (Sql.select_event i s1)
    end; simpl; repeat split; discriminate.
Qed.

(** X26.  A create without a recurrence rule is refused by the template
    table: the INSERT binds NULL to the frequency, which the column does
    not take.  Whatever else the binding refuses, a request that passes
    validation and carries no rule ends the listed part of the handler by
    throwing, and the store is as it was. *)
Theorem create_without_rule_is_refused (s : store) (fault : option nat)
        (data : Request.t) :
  validateRequiredFields data = None ->
  truthy_string (Request.recurrenceRule data) = false ->
  exists message d',
    create_visible parseRRule (Some data) (connect s fault)
    = (Throw message, d')
    /\ cur d' = s /\ snapshot d' = None.
Proof.
  intros Hv Hrule. unfold create_visible, parse_recurrence.
  rewrite Hv, Hrule.
  destruct (Request.title data), (Request.startTime data),
    (Request.endTime data), (Request.venueId data);
    try (eexists; eexists; split; [reflexivity | now split]).
  unfold bind, run, Sql.insert_event, connect.
  destruct fault as [[| n] |]; simpl; eexists; eexists;
    (split; [reflexivity | now split]).
Qed.

End Create.

(** ** The default bound *)


(** C3, at the request of the tests on the empty store, the read of the new
    row being refused. *)
Lemma create_failure_persists_template_witness :
  let reached := create_visible RuleParser.parseRRule
                   (Some (Sample.request "FREQ=WEEKLY;COUNT=4" None))
                   (connect Sample.empty (Some 1%nat)) in
  Recurring_Events (cur (snd reached)) = [Sample.template]
  /\ Event_Instances (cur (snd reached)) = []
  /\ snapshot (snd reached) = None
  /\ cur (snd (ROLLBACK (snd reached))) = cur (snd reached)
  /\ exists message, fst reached = Throw message.
Proof.
  destruct (@create_failure_persists_template RuleParser.parseRRule
              Sample.empty (Some 1%nat)
              (Sample.request "FREQ=WEEKLY;COUNT=4" None)
              Sample.weekly4 "Test Recurring Event"
              (mkDateTime Sample.day0 "10:00:00Z")
              (mkDateTime Sample.day0 "11:00:00Z") 1
              eq_refl eq_refl eq_refl eq_refl eq_refl eq_refl
              ltac:(discriminate))
    as (Ht & Hi & Hs & Hr & Hthrow).
  split; [exact Ht |]. split; [exact Hi |]. split; [exact Hs |].
  split; [exact Hr |]. exact (Hthrow eq_refl).
Defined.

(** X26, at the request of the tests without its rule. *)
Lemma create_without_rule_is_refused_witness :
  exists message d',
    create_visible RuleParser.parseRRule
      (Some (Request.mk (Some "Test Recurring Event") None
               (Some (mkDateTime Sample.day0 "10:00:00Z"))
               (Some (mkDateTime Sample.day0 "11:00:00Z"))
               (Some 1) None None))
      (connect Sample.empty None)
    = (Throw message, d')
    /\ cur d' = Sample.empty /\ snapshot d' = None.
Proof.
  exact (@create_without_rule_is_refused RuleParser.parseRRule Sample.empty
           None
           (Request.mk (Some "Test Recurring Event") None
              (Some (mkDateTime Sample.day0 "10:00:00Z"))
              (Some (mkDateTime Sample.day0 "11:00:00Z"))
              (Some 1) None None)
           eq_refl eq_refl).
Defined.


(** * Reading *)

(** ** The rows under a pair *)

Lemma has_key_true k i : has_key k i = true <-> Instance.key i = k.
Proof.
  unfold has_key, Instance.key. destruct k as [a b]. simpl.
  rewrite andb_true_iff, !Z.eqb_eq. split.
  - intros [-> ->]. reflexivity.
  - intros [= -> ->]. auto.
Qed.

Lemma existsb_filter_nil {A} (p : A -> bool) (l : list A) :
  existsb p l = false <-> filter p l = [].
Proof.
  induction l as [| a l IH]; simpl; [tauto |].
  destruct (p a); simpl; [| exact IH].
  split; discriminate.
Qed.


Lemma unique_row (l : list Instance.t) (i : Instance.t) :
  NoDup (map Instance.key l) -> In i l ->
  filter (has_key (Instance.key i)) l = [i].
Proof.
  induction l as [| j l IH]; simpl; intros Hnd Hin; [contradiction |].
  inversion Hnd as [| ? ? Hnotin Hnd']; subst.
  destruct Hin as [-> | Hin].
  - assert (E : has_key (Instance.key i) i = true) by now apply has_key_true.
    rewrite E. f_equal.
    apply existsb_filter_nil. apply not_true_is_false. intros Hex.
    apply existsb_exists in Hex. destruct Hex as (x & Hx & Hkey).
    apply has_key_true in Hkey. apply Hnotin. rewrite <- Hkey.
    now apply in_map.
  - destruct (has_key (Instance.key i) j) eqn:E.
    + apply has_key_true in E. exfalso. apply Hnotin. rewrite E.
      now apply in_map.
    + now apply IH.
Qed.


(** ** Selecting the instances of a template *)

Lemma insert_by_date_In (x i : Instance.t) (l : list Instance.t) :
  In x (Sql.insert_by_date i l) <-> x = i \/ In x l.
Proof.
  induction l as [| j l IH]; simpl.
  - intuition.
  - destruct (Instance.instance_date i <? Instance.instance_date j); simpl.
    + intuition.
    + rewrite IH. intuition.
Qed.

Lemma select_instances_In (x : Instance.t) (eventId : Z) (s : store) :
  In x (Sql.select_instances eventId s)
  <-> In x (Event_Instances s) /\ Instance.recurring_event_id x = eventId.
Proof.
  unfold Sql.select_instances.
  induction (Event_Instances s) as [| j l IH]; simpl.
  - intuition.
  - destruct (Z.eqb_spec (Instance.recurring_event_id j) eventId) as [E | E];
      simpl.
    + rewrite insert_by_date_In, IH. intuition (subst; auto).
    + rewrite IH. intuition (subst; auto). contradiction.
Qed.


(** ** Reading one template *)

Lemma insert_by_date_sorted i l :
  Sorted by_date l -> Sorted by_date (Sql.insert_by_date i l).
Proof.
  induction l as [| j l IH]; simpl; intros Hs.
  - repeat constructor.
  - destruct (Z.ltb_spec (Instance.instance_date i) (Instance.instance_date j)).
    + constructor; [exact Hs |]. constructor. unfold by_date. lia.
    + inversion Hs as [| ? ? Hs' Hhd]; subst.
      constructor; [now apply IH |].
      destruct l as [| k l]; simpl.
      * constructor. unfold by_date. lia.
      * destruct (Z.ltb_spec (Instance.instance_date i)
                             (Instance.instance_date k)).
        -- constructor. unfold by_date. lia.
        -- constructor. now inversion Hhd.
Qed.

Lemma insert_by_date_length i l :
  List.length (Sql.insert_by_date i l) = S (List.length l).
Proof.
  induction l as [| j l IH]; simpl; [reflexivity |].
  destruct (Instance.instance_date i <? Instance.instance_date j); simpl;
    [reflexivity | now rewrite IH].
Qed.

Lemma select_instances_sorted eventId s :
  Sorted by_date (Sql.select_instances eventId s).
Proof.
  unfold Sql.select_instances.
  induction (filter _ (Event_Instances s)) as [| i l IH]; simpl.
  - constructor.
  - now apply insert_by_date_sorted.
Qed.

Lemma select_instances_length eventId s :
  List.length (Sql.select_instances eventId s)
  = List.length (filter (fun i => Instance.recurring_event_id i =? eventId)
                   (Event_Instances s)).
Proof.
  unfold Sql.select_instances.
  induction (filter _ (Event_Instances s)) as [| i l IH]; simpl;
    [reflexivity |].
  now rewrite insert_by_date_length, IH.
Qed.

(** X12.  A request for one template never writes: whatever the store and
    the connection, the connection is returned as it was.  The answer is
    the error 404 "Event not found" exactly when no template has the
    identifier; otherwise it has status 200 and carries the template row
    and its instances: each instance row of the template and no other row,
    as many as the table holds, in ascending order of date. *)
Theorem get_by_id_answers (d : db) (eventId : Z) :
  snd (get_api_events_id eventId d) = d
  /\ (Sql.select_event eventId (cur d) = None ->
      fst (get_api_events_id eventId d)
      = Ok (errorResponse "Event not found" 404))
  /\ (forall ev, Sql.select_event eventId (cur d) = Some ev ->
      Event.id ev = eventId
      /\ In ev (Recurring_Events (cur d))
      /\ exists instances,
           fst (get_api_events_id eventId d)
           = Ok (jsonResponse (EventBody (Some ev) instances) 200)
           /\ (forall i, In i instances <->
                 In i (Event_Instances (cur d))
                 /\ Instance.recurring_event_id i = eventId)
           /\ List.length instances
              = List.length
                  (filter (fun i => Instance.recurring_event_id i =? eventId)
                     (Event_Instances (cur d)))
           /\ Sorted by_date instances).
Proof.
  unfold get_api_events_id, try_catch, bind, query, ret. simpl.
  split; [| split].
  - now destruct (Sql.select_event eventId (cur d)).
  - now intros ->.
  - intros ev He. rewrite He. simpl.
    unfold Sql.select_event in He. apply find_some in He.
    destruct He as (Hin & Hid). apply Z.eqb_eq in Hid.
    split; [exact Hid |]. split; [exact Hin |].
    exists (Sql.select_instances eventId (cur d)).
    split; [reflexivity |].
    split; [intros i; apply select_instances_In |].
    split; [apply select_instances_length | apply select_instances_sorted].
Qed.


(** ** Listing the templates *)

Lemma insert_by_start_desc_In x e l :
  In x (Select.insert_by_start_desc e l) <-> x = e \/ In x l.
Proof.
  induction l as [| f l IH]; simpl.
  - intuition.
  - destruct (Event.start_date f <? Event.start_date e); simpl.
    + intuition.
    + rewrite IH. intuition.
Qed.

Lemma insert_by_start_desc_length e l :
  List.length (Select.insert_by_start_desc e l) = S (List.length l).
Proof.
  induction l as [| f l IH]; simpl; [reflexivity |].
  destruct (Event.start_date f <? Event.start_date e); simpl;
    [reflexivity | now rewrite IH].
Qed.

Lemma insert_by_start_desc_sorted e l :
  StronglySorted by_start_desc l ->
  StronglySorted by_start_desc (Select.insert_by_start_desc e l).
Proof.
  induction l as [| f l IH]; simpl; intros Hs.
  - repeat constructor.
  - inversion Hs as [| ? ? Hs' Hall]; subst.
    destruct (Z.ltb_spec (Event.start_date f) (Event.start_date e)).
    + constructor; [exact Hs |]. constructor; [unfold by_start_desc; lia |].
      rewrite Forall_forall in *. intros x Hx. specialize (Hall x Hx).
      unfold by_start_desc in *. lia.
    + constructor; [now apply IH |].
      rewrite Forall_forall in *. intros x Hx.
      apply insert_by_start_desc_In in Hx. destruct Hx as [-> | Hx].
      * unfold by_start_desc. lia.
      * now apply Hall.
Qed.

Lemma by_start_date_desc_spec l :
  (forall x, In x (Select.by_start_date_desc l) <-> In x l)
  /\ List.length (Select.by_start_date_desc l) = List.length l
  /\ StronglySorted by_start_desc (Select.by_start_date_desc l).
Proof.
  unfold Select.by_start_date_desc.
  induction l as [| e l (IHin & IHlen & IHs)]; simpl.
  - split; [tauto |]. split; [reflexivity | constructor].
  - split; [| split].
    + intros x. rewrite insert_by_start_desc_In, IHin. intuition.
    + now rewrite insert_by_start_desc_length, IHlen.
    + now apply insert_by_start_desc_sorted.
Qed.

Lemma StronglySorted_skipn {A} (R : A -> A -> Prop) n l :
  StronglySorted R l -> StronglySorted R (skipn n l).
Proof.
  revert l. induction n as [| n IH]; intros l Hs; simpl; [exact Hs |].
  destruct l as [| a l]; [constructor |].
  apply IH. now inversion Hs.
Qed.

Lemma In_firstn_In {A} n (l : list A) x : In x (firstn n l) -> In x l.
Proof.
  revert l. induction n as [| n IH]; intros l; simpl; [tauto |].
  destruct l as [| a l]; [tauto |]. simpl. intros [-> | H]; [now left |].
  right. now apply IH.
Qed.

Lemma StronglySorted_firstn {A} (R : A -> A -> Prop) n l :
  StronglySorted R l -> StronglySorted R (firstn n l).
Proof.
  revert l. induction n as [| n IH]; intros l Hs; simpl; [constructor |].
  destruct l as [| a l]; [constructor |].
  inversion Hs as [| ? ? Hs' Hall]; subst.
  constructor; [now apply IH |].
  rewrite Forall_forall in *. intros x Hx. apply Hall.
  eapply In_firstn_In; eassumption.
Qed.

Lemma In_skipn_to_In {A} n (l : list A) x : In x (skipn n l) -> In x l.
Proof.
  revert l. induction n as [| n IH]; intros l; simpl; [tauto |].
  destruct l as [| a l]; [tauto |]. intros H. right. now apply IH.
Qed.

Lemma page_spec {A} (R : A -> A -> Prop) limit offset (l : list A) :
  (forall x, In x (Select.page limit offset l) -> In x l)
  /\ (StronglySorted R l -> StronglySorted R (Select.page limit offset l))
  /\ List.length (Select.page limit offset l)
     = if limit <? 0 then (List.length l - Z.to_nat offset)%nat
       else Nat.min (Z.to_nat limit) (List.length l - Z.to_nat offset)%nat.
Proof.
  unfold Select.page. destruct (limit <? 0); repeat split.
  - intros x. apply In_skipn_to_In.
  - apply StronglySorted_skipn.
  - apply length_skipn.
  - intros x Hx. eapply In_skipn_to_In, In_firstn_In. eassumption.
  - intros Hs. now apply StronglySorted_firstn, StronglySorted_skipn.
  - now rewrite length_firstn, length_skipn.
Qed.

Lemma map_event_items (f : Event.t -> option Instance.t) (l : list Event.t) :
  map Listing.event (map (fun e => Listing.mkItem e (f e)) l) = l.
Proof. rewrite map_map. simpl. apply map_id. Qed.

Lemma bound_exact (n : Z) : exact n -> bound (Num n) = Some n.
Proof.
  unfold exact, bound. intros [Hlo Hhi].
  assert (H63 : 2 ^ 63 = 2 * 2 ^ 10 * 2 ^ 52) by reflexivity.
  assert (H52 : 0 < 2 ^ 52) by reflexivity.
  destruct (Z.leb_spec (- 2 ^ 63) n); [| lia].
  destruct (Z.ltb_spec n (2 ^ 63)); [reflexivity | lia].
Qed.

(** X14.  The listing of the templates never writes and always answers.
    When a parameter is not a number ([parseInt] gives NaN) or lies beyond
    the integers of 64 bits, the binding refuses it and the answer is an
    error with status 500.  When both are absent or integers within 2^52
    of 0, the answer is a page: the pagination gives back the limit and
    the offset used (100 and 0 when absent) with the number of templates
    as the total; the templates of the page are templates of the table, in
    descending order of start date; with a limit that is not negative the
    page holds at most that many, and [hasMore] is true exactly when
    templates remain after the page (the offset not being negative
    either); a negative limit lists every template after the offset. *)
Theorem listing_is_a_page (d : db) (today : date)
        (limitParam offsetParam : option number) :
  snd (get_api_events today limitParam offsetParam d) = d
  /\ (bound (parse_or limitParam 100) = None
      \/ bound (parse_or offsetParam 0) = None ->
      exists message,
        fst (get_api_events today limitParam offsetParam d)
        = Ok (Listing.Failed ("Error retrieving events: " ++ message) 500))
  /\ forall limit offset,
       parse_or limitParam 100 = Num limit -> exact limit ->
       parse_or offsetParam 0 = Num offset -> exact offset ->
       let total := Z.of_nat (List.length (Recurring_Events (cur d))) in
       exists items,
         fst (get_api_events today limitParam offsetParam d)
         = Ok (Listing.Page items
                 (Listing.mkPagination total (Num limit) (Num offset)
                    (offset + limit <? total)))
         /\ (forall e, In e (map Listing.event items) ->
                       In e (Recurring_Events (cur d)))
         /\ StronglySorted by_start_desc (map Listing.event items)
         /\ (0 <= limit -> Z.of_nat (List.length items) <= limit)
         /\ (0 <= limit -> 0 <= offset ->
             ((offset + limit <? total) = true
              <-> offset + Z.of_nat (List.length items) < total))
         /\ (limit < 0 -> 0 <= offset ->
             Z.of_nat (List.length items) = Z.max 0 (total - offset)).
Proof.
  split; [| split].
  - unfold get_api_events, try_catch, bind, query, throw, ret. cbv zeta.
    destruct (bound (parse_or limitParam 100)),
      (bound (parse_or offsetParam 0)); try reflexivity.
    match goal with
    | |- context [match ?l with [] => _ | _ :: _ => _ end] => destruct l
    end; reflexivity.
  - intros Hbad. exists "D1_TYPE_ERROR".
    unfold get_api_events, try_catch, bind, query, throw, ret. cbv zeta.
    destruct (bound (parse_or limitParam 100)) as [l |];
      [destruct (bound (parse_or offsetParam 0)) as [o |] |];
      try reflexivity.
    destruct Hbad; discriminate.
  - intros limit offset Hl Hle Ho Hoe total.
    set (sorted := Select.by_start_date_desc (Recurring_Events (cur d))).
    set (events := Select.page limit offset sorted).
    destruct (by_start_date_desc_spec (Recurring_Events (cur d)))
      as (Hin & Hlen & Hsorted).
    fold sorted in Hin, Hlen, Hsorted.
    destruct (page_spec by_start_desc limit offset sorted)
      as (Hpin & Hps & Hplen).
    fold events in Hpin, Hps, Hplen.
    assert (Hrun : exists results,
      fst (get_api_events today limitParam offsetParam d)
      = Ok (Listing.Page
              (map (fun e => Listing.mkItem e
                               (Select.from_map (Event.id e) results)) events)
              (Listing.mkPagination total (Num limit) (Num offset)
                 (offset + limit <? total)))).
    { unfold get_api_events, try_catch, bind, query, ret. cbv zeta.
      rewrite Hl, Ho, (bound_exact Hle), (bound_exact Hoe).
      cbn [cur has_more]. fold sorted. fold events. fold total.
      destruct events; [exists [] | eexists]; reflexivity. }
    destruct Hrun as (results & Hrun).
    eexists. split; [exact Hrun |].
    rewrite map_event_items, length_map.
    split; [intros e He; now apply Hin, Hpin |].
    split; [now apply Hps |].
    rewrite Hplen, Hlen. unfold total.
    split; [| split].
    + intros Hl0. destruct (Z.ltb_spec limit 0); lia.
    + intros Hl0 Ho0. destruct (Z.ltb_spec limit 0); [lia |].
      rewrite Z.ltb_lt. lia.
    + intros Hl0 Ho0. destruct (Z.ltb_spec limit 0); lia.
Qed.

Lemma minimum_spec (l : list date) :
  match Select.minimum l with
  | Some m => In m l /\ forall x, In x l -> m <= x
  | None => l = []
  end.
Proof.
  induction l as [| d l IH]; simpl; [reflexivity |].
  destruct (Select.minimum l) as [m |].
  - destruct IH as (Hin & Hle). split.
    + destruct (Z.min_spec d m) as [(_ & ->) | (_ & ->)]; auto.
    + intros x [<- | Hx]; [lia |]. specialize (Hle x Hx). lia.
  - subst l. split; [now left |]. intros x [<- | []]. lia.
Qed.

Lemma is_upcoming_true today j :
  Select.is_upcoming today j = true
  <-> today <= Instance.instance_date j /\ Instance.is_cancelled j = false.
Proof.
  unfold Select.is_upcoming.
  rewrite andb_true_iff, Z.leb_le, negb_true_iff. tauto.
Qed.

Lemma next_date_spec today eventId s :
  match Select.next_date today eventId s with
  | Some m =>
      (exists j, In j (Event_Instances s)
                 /\ Instance.recurring_event_id j = eventId
                 /\ Select.is_upcoming today j = true
                 /\ Instance.instance_date j = m)
      /\ (forall j, In j (Event_Instances s) ->
                    Instance.recurring_event_id j = eventId ->
                    Select.is_upcoming today j = true ->
                    m <= Instance.instance_date j)
  | None =>
      forall j, In j (Event_Instances s) ->
                Instance.recurring_event_id j = eventId ->
                Select.is_upcoming today j = false
  end.
Proof.
  unfold Select.next_date.
  set (rows := filter (fun i => (Instance.recurring_event_id i =? eventId)
                                && Select.is_upcoming today i)
                 (Event_Instances s)).
  assert (Hrows : forall j, In j rows <->
                    In j (Event_Instances s)
                    /\ Instance.recurring_event_id j = eventId
                    /\ Select.is_upcoming today j = true).
  { intros j. unfold rows. rewrite filter_In, andb_true_iff, Z.eqb_eq. tauto. }
  pose proof (minimum_spec (map Instance.instance_date rows)) as Hmin.
  destruct (Select.minimum (map Instance.instance_date rows)) as [m |].
  - destruct Hmin as (Hin & Hle). split.
    + apply in_map_iff in Hin. destruct Hin as (j & Hd & Hj).
      apply Hrows in Hj. exists j. tauto.
    + intros j Hj Hr Hu. apply Hle. apply in_map. apply Hrows. tauto.
  - intros j Hj Hr. destruct (Select.is_upcoming today j) eqn:Hu;
      [| reflexivity].
    assert (Hin : In j rows) by (apply Hrows; tauto).
    apply (in_map Instance.instance_date) in Hin. rewrite Hmin in Hin.
    contradiction.
Qed.

Lemma from_map_upcoming today eventIds s eventId :
  Select.mem_id eventId eventIds = true ->
  next_of today eventId s
    (Select.from_map eventId (Select.upcoming today eventIds s)).
Proof.
  intros Hmem. unfold Select.from_map.
  pose proof (next_date_spec today eventId s) as Hnext.
  destruct (find _ (rev (Select.upcoming today eventIds s))) as [i |] eqn:Hf.
  - apply find_some in Hf. destruct Hf as (Hin & Hid).
    apply Z.eqb_eq in Hid. apply in_rev in Hin.
    unfold Select.upcoming in Hin. apply filter_In in Hin.
    destruct Hin as (Hin & Hq). apply andb_prop in Hq.
    destruct Hq as (_ & Hq). rewrite Hid in Hq.
    destruct (Select.next_date today eventId s) as [m |]; [| discriminate].
    apply Z.eqb_eq in Hq. destruct Hnext as ((j & Hj & Hr & Hu & Hd) & Hle).
    apply is_upcoming_true in Hu. destruct Hu as (Hu1 & Hu2).
    simpl. repeat split; try assumption.
    + lia.
    + exists j. split; [exact Hj |]. split; [| exact Hu2].
      unfold Instance.key. congruence.
    + intros k Hk Hkr Hkd Hkc. rewrite Hq. apply Hle; try assumption.
      apply is_upcoming_true. tauto.
  - simpl. intros j Hj Hr Hd.
    destruct (Instance.is_cancelled j) eqn:Hc; [reflexivity |]. exfalso.
    destruct (Select.next_date today eventId s) as [m |] eqn:Hm.
    + destruct Hnext as ((k & Hk & Hkr & Hku & Hkd) & _).
      assert (Hin : In k (rev (Select.upcoming today eventIds s))).
      { apply in_rev. rewrite rev_involutive. unfold Select.upcoming.
        apply filter_In. split; [exact Hk |].
        rewrite Hkr, Hmem, Hm. simpl. now apply Z.eqb_eq. }
      pose proof (find_none _ _ Hf k Hin) as Hno. simpl in Hno.
      rewrite Hkr, Z.eqb_refl in Hno. discriminate.
    + specialize (Hnext j Hj Hr).
      assert (Hu : Select.is_upcoming today j = true)
        by (apply is_upcoming_true; tauto).
      congruence.
Qed.

(** X15.  When the binding takes the limit and the offset, the listing
    answers with a page in which the [nextInstance] of each template is a
    row of that template on the earliest date, today or later, on which
    the template has an instance that is not cancelled, and is absent
    exactly when every instance of the template from today on is cancelled
    (or there is none); where the pair (template, date) identifies a row,
    the [nextInstance] is itself not cancelled. *)
Theorem listing_next_instance (d : db) (today : date)
        (limitParam offsetParam : option number) (limit offset : Z) :
  bound (parse_or limitParam 100) = Some limit ->
  bound (parse_or offsetParam 0) = Some offset ->
  exists items p,
    fst (get_api_events today limitParam offsetParam d)
    = Ok (Listing.Page items p)
    /\ forall it, In it items ->
         next_of today (Event.id (Listing.event it)) (cur d)
           (Listing.nextInstance it)
         /\ (pairs_unique (cur d) ->
             forall i, Listing.nextInstance it = Some i ->
                       Instance.is_cancelled i = false).
Proof.
  intros Hl Ho.
  set (events := Select.page limit offset
                   (Select.by_start_date_desc (Recurring_Events (cur d)))).
  assert (Hrun : exists p,
    fst (get_api_events today limitParam offsetParam d)
    = Ok (Listing.Page
            (map (fun e => Listing.mkItem e
                    (Select.from_map (Event.id e)
                       (match events with
                        | [] => []
                        | _ => Select.upcoming today (map Event.id events)
                                 (cur d)
                        end))) events) p)).
  { unfold get_api_events, try_catch, bind, query, ret. cbv zeta.
    rewrite Hl, Ho. cbn [cur]. fold events.
    destruct events; eexists; reflexivity. }
  destruct Hrun as (p & Hrun).
  eexists _, p. split; [exact Hrun |].
  intros it Hit. apply in_map_iff in Hit. destruct Hit as (e & <- & He).
  cbn [Listing.event Listing.nextInstance].
  assert (Hmem : Select.mem_id (Event.id e) (map Event.id events) = true).
  { unfold Select.mem_id. apply existsb_exists. exists (Event.id e).
    split; [now apply in_map | apply Z.eqb_refl]. }
  destruct events as [| e1 events']; [contradiction |].
  pose proof (@from_map_upcoming today (map Event.id (e1 :: events')) (cur d)
                (Event.id e) Hmem) as Hnext.
  split; [exact Hnext |].
  intros Hunique i Hi. rewrite Hi in Hnext.
  destruct Hnext as (Hin & _ & _ & (j & Hj & Hk & Hc) & _).
  assert (Hone : filter (has_key (Instance.key i)) (Event_Instances (cur d))
                 = [i]) by now apply unique_row.
  assert (Hjin : In j (filter (has_key (Instance.key i))
                         (Event_Instances (cur d)))).
  { apply filter_In. split; [exact Hj |]. now apply has_key_true. }
  rewrite Hone in Hjin. destruct Hjin as [<- | []]. exact Hc.
Qed.

(** X15, at the listing of the sample store with no parameter. *)
Lemma listing_next_instance_witness :
  exists items p,
    fst (get_api_events Sample.day0 None None (connect Sample.created None))
    = Ok (Listing.Page items p)
    /\ forall it, In it items ->
         next_of Sample.day0 (Event.id (Listing.event it)) Sample.created
           (Listing.nextInstance it)
         /\ (pairs_unique Sample.created ->
             forall i, Listing.nextInstance it = Some i ->
                       Instance.is_cancelled i = false).
Proof.
  exact (@listing_next_instance (connect Sample.created None) Sample.day0
           None None 100 0 eq_refl eq_refl).
Defined.

(** * The router *)

Section RouterFacts.

Variable H : Type.

Lemma property_assign_same {V} (k : string) (v : V) (o : Router.object V) :
  Router.property k (Router.assign k v o) = Some v.
Proof.
  induction o as [| [k' v'] o IH]; simpl.
  - now rewrite String.eqb_refl.
  - destruct (String.eqb_spec k' k) as [-> | Hne]; simpl.
    + now rewrite String.eqb_refl.
    + destruct (String.eqb_spec k' k); [contradiction | exact IH].
Qed.

Lemma property_assign_other {V} (k k' : string) (v : V) (o : Router.object V) :
  k' <> k ->
  Router.property k' (Router.assign k v o) = Router.property k' o.
Proof.
  intros Hne. induction o as [| [k0 v0] o IH]; simpl.
  - destruct (String.eqb_spec k k'); [congruence | reflexivity].
  - destruct (String.eqb_spec k0 k) as [-> | Hne0]; simpl.
    + destruct (String.eqb_spec k k'); [congruence | reflexivity].
    + destruct (String.eqb_spec k0 k'); [reflexivity | exact IH].
Qed.

(** X16.  Registering and dispatching.  After a handler is registered for
    one of the methods GET, POST, PUT, PATCH and DELETE and a path, a
    request of that method for exactly that path calls it, without
    parameters, whatever routes were registered before (a route with
    parameters that fits the path does not take it); requests of any other
    method are dispatched as before; a request whose method is a name that
    every object inherits ([constructor], [toString], ..) finds no route
    and is answered Not Found; a request of any other method that is not
    listed makes the router throw, whatever is registered. *)
Theorem register_then_handle (r : Router.t H) (m : Router.Method)
        (path : string) (h : H) :
  (Router.listed m = true ->
   Router.handle (Router.register m path h r) m path
   = Some (Router.Call h None))
  /\ (forall m' p, m' <> m ->
        Router.handle (Router.register m path h r) m' p
        = Router.handle r m' p)
  /\ (forall p, Router.handle (Router.register m path h r) Router.INHERITED p
                = Some (Router.NotFound H))
  /\ (forall p, Router.handle (Router.register m path h r) Router.OTHER p
                = None).
Proof.
  split; [| split; [| split]].
  - intros Hm. unfold Router.handle.
    destruct m; try discriminate; simpl;
      now rewrite property_assign_same.
  - intros m' p Hne. unfold Router.handle.
    destruct m, m'; try contradiction; reflexivity.
  - intros p. now destruct m.
  - intros p. now destruct m.
Qed.

Lemma match_parts_fits (rps pps : list string) (params : Router.object string) :
  List.length rps = List.length pps ->
  (exists out, Router.match_parts rps pps params = Some out)
  <-> forallb (fun rp => Router.agree (fst rp) (snd rp)) (combine rps pps)
      = true.
Proof.
  revert pps params. induction rps as [| rp rps IH]; intros pps params Hlen.
  - simpl. split; [reflexivity | now exists params].
  - destruct pps as [| pp pps]; [discriminate |].
    injection Hlen as Hlen. simpl. unfold Router.agree at 1. simpl.
    destruct (Router.starts_with_colon rp); simpl; [now apply IH |].
    destruct (rp =? pp)%string; simpl; [now apply IH |].
    split; [intros (out & Ho); discriminate | discriminate].
Qed.

Lemma match_parts_names (rps pps : list string) (params out : Router.object string)
      (name : string) :
  Router.match_parts rps pps params = Some out ->
  Router.property name out
  = match Router.part_named name rps pps with
    | Some v => Some v
    | None => Router.property name params
    end.
Proof.
  revert pps params. induction rps as [| rp rps IH]; intros pps params.
  - simpl. now intros [= <-].
  - destruct pps as [| pp pps]; [simpl; now intros [= <-] |]. simpl.
    destruct (Router.starts_with_colon rp); simpl.
    + intros Hm. rewrite (IH _ _ Hm).
      destruct (Router.part_named name rps pps); [reflexivity |].
      destruct (String.eqb_spec (Router.substring1 rp) name) as [-> | Hne].
      * apply property_assign_same.
      * apply property_assign_other. congruence.
    + destruct (rp =? pp)%string; [| discriminate].
      intros Hm. rewrite (IH _ _ Hm).
      now destruct (Router.part_named name rps pps).
Qed.

Lemma dynamic_spec (routes : Router.object H) (path : string) :
  match Router.dynamic routes path with
  | Router.Call h (Some params) =>
      exists before routePath after,
        routes = (before ++ (routePath, h) :: after)%list
        /\ Router.fits routePath path = true
        /\ (forall rp, In rp before -> Router.fits (fst rp) path = false)
        /\ forall name,
             Router.property name params
             = Router.part_named name (Router.parts routePath)
                 (Router.parts path)
  | Router.Call _ None => False
  | Router.NotFound _ =>
      forall rp, In rp routes -> Router.fits (fst rp) path = false
  end.
Proof.
  induction routes as [| [routePath h] routes IH]; simpl; [tauto |].
  assert (Hskip : Router.fits routePath path = false ->
    match Router.dynamic routes path with
    | Router.Call h0 (Some params) =>
        exists before routePath0 after,
          ((routePath, h) :: routes
           = before ++ (routePath0, h0) :: after)%list
          /\ Router.fits routePath0 path = true
          /\ (forall rp, In rp before -> Router.fits (fst rp) path = false)
          /\ forall name,
               Router.property name params
               = Router.part_named name (Router.parts routePath0)
                   (Router.parts path)
    | Router.Call _ None => False
    | Router.NotFound _ =>
        forall rp, (routePath, h) = rp \/ In rp routes ->
                   Router.fits (fst rp) path = false
    end).
  { intros Hno. destruct (Router.dynamic routes path) as [h0 [params |] |];
      [| exact IH |].
    - destruct IH as (before & rp0 & after & -> & Hfit & Hbefore & Hnames).
      exists ((routePath, h) :: before), rp0, after.
      split; [reflexivity |]. split; [exact Hfit |].
      split; [| exact Hnames].
      intros rp [<- | Hin]; [exact Hno | now apply Hbefore].
    - intros rp [<- | Hin]; [exact Hno | now apply IH]. }
  unfold Router.fits at 1 in Hskip.
  destruct (Router.includes_colon routePath) eqn:Hcolon;
    [| now apply Hskip].
  destruct (Nat.eqb_spec (List.length (Router.parts routePath))
                         (List.length (Router.parts path))) as [Hlen | Hlen];
    [| now apply Hskip].
  simpl.
  destruct (Router.match_parts (Router.parts routePath) (Router.parts path) [])
    as [params |] eqn:Hm.
  - exists [], routePath, routes. split; [reflexivity |].
    split.
    + unfold Router.fits. rewrite Hcolon. simpl.
      rewrite (proj2 (Nat.eqb_eq _ _) Hlen). simpl.
      apply (match_parts_fits _ _ [] Hlen). now exists params.
    + split; [intros rp [] |].
      intros name. rewrite (match_parts_names _ _ _ name Hm). simpl.
      now destruct (Router.part_named name _ _).
  - apply Hskip. simpl.
    destruct (forallb _ _) eqn:Hall; [| reflexivity].
    apply (match_parts_fits _ _ [] Hlen) in Hall.
    destruct Hall as (out & Hout). congruence.
Qed.

(** X17.  What [handle] finds, for a method that has a table of routes.  A
    route registered under exactly the path is called without parameters.
    Otherwise the first route, in the order of registration, that has a
    parameter and fits the path (as many parts between the slashes, each
    literal part equal to the part of the path at its place) is called,
    and [request.params] binds each parameter name to the part of the path
    at its place (at the last one, for a name that occurs twice), and no
    other name.  When no route fits, the answer is Not Found. *)
Theorem handle_finds_first_fit (r : Router.t H) (m : Router.Method)
        (routes : Router.object H) (path : string) :
  Router.table r m = Some routes ->
  match Router.handle r m path with
  | Some (Router.Call h None) => Router.property path routes = Some h
  | Some (Router.Call h (Some params)) =>
      Router.property path routes = None
      /\ exists before routePath after,
           routes = (before ++ (routePath, h) :: after)%list
           /\ Router.fits routePath path = true
           /\ (forall rp, In rp before -> Router.fits (fst rp) path = false)
           /\ forall name,
                Router.property name params
                = Router.part_named name (Router.parts routePath)
                    (Router.parts path)
  | Some (Router.NotFound _) =>
      Router.property path routes = None
      /\ forall rp, In rp routes -> Router.fits (fst rp) path = false
  | None => False
  end.
Proof.
  intros Ht. unfold Router.handle. rewrite Ht.
  destruct (Router.property path routes) as [h |] eqn:Hp; [reflexivity |].
  pose proof (dynamic_spec routes path) as Hd.
  destruct (Router.dynamic routes path) as [h [params |] |];
    [split; [reflexivity | exact Hd] | contradiction
    | split; [reflexivity | exact Hd]].
Qed.

End RouterFacts.

(** ** The routes of the events *)

Lemma split_no_slash (x : string) :
  Router.no_slash x = true -> RuleParser.split_on "/" x = [x].
Proof.
  induction x as [| a x IH]; simpl; [reflexivity |].
  intros Hx. apply andb_prop in Hx. destruct Hx as (Ha & Hx).
  apply negb_true_iff in Ha. rewrite Ha, (IH Hx). reflexivity.
Qed.

Lemma split_at_slash (x rest : string) :
  Router.no_slash x = true ->
  RuleParser.split_on "/" (x ++ String "/" rest)
  = x :: RuleParser.split_on "/" rest.
Proof.
  induction x as [| a x IH]; simpl; [reflexivity |].
  intros Hx. apply andb_prop in Hx. destruct Hx as (Ha & Hx).
  apply negb_true_iff in Ha. rewrite Ha, (IH Hx). reflexivity.
Qed.

Lemma slash_in_append (x y : string) :
  Router.no_slash (x ++ String "/" y) = false.
Proof.
  induction x as [| a x IH]; simpl; [reflexivity |].
  rewrite IH. apply andb_false_r.
Qed.

(** X18.  The five routes of the events.  For a part [x] without a slash
    (the empty one included) other than the text [:id], the path
    [/api/events/x] is dispatched for GET, PUT and DELETE to the handlers
    registered under [/api/events/:id], with [request.params] holding [id]
    bound to [x] and nothing else; for POST and PATCH it is Not Found, as
    is a longer path [/api/events/x/y] for GET.  The path
    [/api/events/:id] itself is taken by the exact match: its handler is
    called without [request.params]. *)
Theorem events_routes_dispatch (x : string) :
  Router.no_slash x = true ->
  x <> ":id" ->
  Router.handle eventsRouter Router.GET ("/api/events/" ++ x)
  = Some (Router.Call GetEvent (Some [("id", x)]))
  /\ Router.handle eventsRouter Router.PUT ("/api/events/" ++ x)
     = Some (Router.Call UpdateEvent (Some [("id", x)]))
  /\ Router.handle eventsRouter Router.DELETE ("/api/events/" ++ x)
     = Some (Router.Call DeleteEvent (Some [("id", x)]))
  /\ Router.handle eventsRouter Router.POST ("/api/events/" ++ x)
     = Some (Router.NotFound EventsRoute)
  /\ Router.handle eventsRouter Router.PATCH ("/api/events/" ++ x)
     = Some (Router.NotFound EventsRoute)
  /\ (forall y, Router.no_slash y = true ->
        Router.handle eventsRouter Router.GET ("/api/events/" ++ x ++ "/" ++ y)
        = Some (Router.NotFound EventsRoute))
  /\ Router.handle eventsRouter Router.GET "/api/events/:id"
     = Some (Router.Call GetEvent None).
Proof.
  intros Hx Hne.
  assert (Hparts : Router.parts ("/api/events/" ++ x)
                   = [""; "api"; "events"; x]).
  { unfold Router.parts. simpl. now rewrite (split_no_slash _ Hx). }
  assert (Hexact : forall (h : EventsRoute) rest,
    Router.property ("/api/events/" ++ x)
      (("/api/events/:id", h) :: rest)
    = Router.property ("/api/events/" ++ x) rest).
  { intros h rest.
    change (Router.property ("/api/events/" ++ x)
              (("/api/events/:id", h) :: rest))
      with (if ("/api/events/:id" =? "/api/events/" ++ x)%string
            then Some h
            else Router.property ("/api/events/" ++ x) rest).
    destruct (String.eqb_spec "/api/events/:id" ("/api/events/" ++ x))
      as [Heq |]; [| reflexivity].
    simpl in Heq. congruence. }
  assert (Hdyn : forall (h : EventsRoute) rest,
    Router.dynamic (("/api/events/:id", h) :: rest) ("/api/events/" ++ x)
    = Router.Call h (Some [("id", x)])).
  { intros h rest. unfold Router.dynamic.
    change (Router.includes_colon "/api/events/:id") with true.
    cbv iota zeta. rewrite Hparts.
    change (Router.parts "/api/events/:id")
      with [""; "api"; "events"; ":id"].
    reflexivity. }
  split; [| split; [| split; [| split; [| split; [| split]]]]].
  - unfold Router.handle.
    change (Router.table eventsRouter Router.GET)
      with (Some [("/api/events", ListEvents); ("/api/events/:id", GetEvent)]).
    cbv iota.
    change (Router.property ("/api/events/" ++ x)
              [("/api/events", ListEvents); ("/api/events/:id", GetEvent)])
      with (Router.property ("/api/events/" ++ x)
              [("/api/events/:id", GetEvent)]).
    rewrite Hexact. simpl Router.property. cbv iota.
    change (Router.dynamic
              [("/api/events", ListEvents); ("/api/events/:id", GetEvent)]
              ("/api/events/" ++ x))
      with (Router.dynamic [("/api/events/:id", GetEvent)]
              ("/api/events/" ++ x)).
    now rewrite Hdyn.
  - unfold Router.handle.
    change (Router.table eventsRouter Router.PUT)
      with (Some [("/api/events/:id", UpdateEvent)]).
    cbv iota. rewrite Hexact. simpl Router.property. cbv iota.
    now rewrite Hdyn.
  - unfold Router.handle.
    change (Router.table eventsRouter Router.DELETE)
      with (Some [("/api/events/:id", DeleteEvent)]).
    cbv iota. rewrite Hexact. simpl Router.property. cbv iota.
    now rewrite Hdyn.
  - reflexivity.
  - reflexivity.
  - intros y Hy. unfold Router.handle.
    change (Router.table eventsRouter Router.GET)
      with (Some [("/api/events", ListEvents); ("/api/events/:id", GetEvent)]).
    cbv iota.
    assert (Hp : Router.parts ("/api/events/" ++ x ++ "/" ++ y)
                 = [""; "api"; "events"; x; y]).
    { unfold Router.parts. simpl.
      now rewrite (split_at_slash _ _ Hx), (split_no_slash _ Hy). }
    assert (Hprop : Router.property ("/api/events/" ++ x ++ "/" ++ y)
                      [("/api/events", ListEvents);
                       ("/api/events/:id", GetEvent)] = None).
    { change (Router.property ("/api/events/" ++ x ++ "/" ++ y)
                [("/api/events", ListEvents); ("/api/events/:id", GetEvent)])
        with (if ("/api/events/:id" =? "/api/events/" ++ x ++ "/" ++ y)%string
              then Some GetEvent else None).
      destruct (String.eqb_spec "/api/events/:id"
                  ("/api/events/" ++ x ++ "/" ++ y)) as [Heq |];
        [| reflexivity].
      exfalso. simpl in Heq.
      pose proof (slash_in_append x y) as Hs.
      assert (Hid : ":id" = (x ++ String "/" y)%string) by congruence.
      rewrite <- Hid in Hs. discriminate. }
    rewrite Hprop. unfold Router.dynamic.
    change (Router.includes_colon "/api/events") with false.
    change (Router.includes_colon "/api/events/:id") with true.
    cbv iota zeta. rewrite Hp.
    reflexivity.
  - reflexivity.
Qed.

(** X18, at the path [/api/events/42]. *)
Lemma events_routes_dispatch_witness :
  Router.handle eventsRouter Router.GET "/api/events/42"
  = Some (Router.Call GetEvent (Some [("id", "42")])).
Proof.
  exact (proj1 (@events_routes_dispatch "42" eq_refl
                  ltac:(discriminate))).
Defined.

(** X17, at the events router and a request to delete the event 7. *)
Lemma handle_finds_first_fit_witness :
  match Router.handle eventsRouter Router.DELETE "/api/events/7" with
  | Some (Router.Call h None) =>
      Router.property "/api/events/7" [("/api/events/:id", DeleteEvent)]
      = Some h
  | Some (Router.Call h (Some params)) =>
      Router.property "/api/events/7" [("/api/events/:id", DeleteEvent)]
      = None
      /\ exists before routePath after,
           [("/api/events/:id", DeleteEvent)]
           = (before ++ (routePath, h) :: after)%list
           /\ Router.fits routePath "/api/events/7" = true
           /\ (forall rp, In rp before ->
                          Router.fits (fst rp) "/api/events/7" = false)
           /\ forall name,
                Router.property name params
                = Router.part_named name (Router.parts routePath)
                    (Router.parts "/api/events/7")
  | Some (Router.NotFound _) =>
      Router.property "/api/events/7" [("/api/events/:id", DeleteEvent)]
      = None
      /\ forall rp, In rp [("/api/events/:id", DeleteEvent)] ->
                    Router.fits (fst rp) "/api/events/7" = false
  | None => False
  end.
Proof.
  exact (@handle_finds_first_fit EventsRoute eventsRouter Router.DELETE
           [("/api/events/:id", DeleteEvent)] "/api/events/7" eq_refl).
Defined.


(** * The instance table as declared *)

(** C2.  The instance table as the sources declare it has no key on the
    pair (recurring_event_id, instance_date).  The upsert of the update
    handler, whose conflict target is that pair, is refused whatever the
    row and the store.  The declaration itself keeps no pair unique: an
    INSERT of a row whose template exists is accepted whatever rows are
    stored, so that the same pair is stored twice under two identifiers
    (the handlers issue no such INSERT: the create handler inserts the
    generated instances of a new template); the foreign key refuses the
    row of a template the store does not hold. *)
Theorem declared_table_accepts_duplicate_pair :
  let g := Generated.mk 1 Sample.day0 "10:00:00" (Some "11:00:00")
             "Test Recurring Event" (Some "Test Description") 1 false in
  let holding := mkStore [Sample.template] 1 [] 0 [] 0 in
  Schema.is_key Schema.Event_Instances Schema.pair = false
  /\ (forall g' s, Schema.upsert Schema.Event_Instances g' s = None)
  /\ (forall g' s,
         Schema.template_exists Schema.Event_Instances g' s = true ->
         Schema.insert Schema.Event_Instances g' s
         = Some (Sql.append_instance g' s, mkTally 1 0 0))
  /\ (exists s1 s2 t1 t2,
         Schema.insert Schema.Event_Instances g holding = Some (s1, t1)
         /\ Schema.insert Schema.Event_Instances g s1 = Some (s2, t2)
         /\ map Instance.key (Event_Instances s2)
            = [(1, Sample.day0); (1, Sample.day0)]
         /\ map Instance.id (Event_Instances s2) = [1; 2])
  /\ Schema.insert Schema.Event_Instances g Sample.empty = None.
Proof.
  intros g holding. split; [reflexivity |]. split; [reflexivity |].
  split; [| split; [| reflexivity]].
  - intros g' s Hfk. unfold Schema.insert. now rewrite Hfk.
  - eexists _, _, _, _. repeat split; reflexivity.
Qed.
